(** * A shallow embedding of [v3.py] (class [VideoGenerator])

    The pipeline of [v3.py] synthesises one narration clip per caption,
    cuts an intro clip out of a source video, turns still images into
    clips, mixes narration and background music, and encodes the result.

    Conventions of the embedding.
    - Python floats that measure time and sound (durations, times,
      amplitudes) are idealised as rationals [Q]; results on them are
      stated up to [Qeq] ([==]).  The floats that decide which branch of
      [resize_and_pad_video] is taken, the scale ratio and the sizes
      computed from it, are binary64 numbers: rationals that a double
      holds, with every division and product rounded by [binary64].
    - An exception is a value of [result]; stateful code lives in the monad
      [M], whose state holds the files on disk, the number of calls made to
      the speech provider, and the chronological trace of external effects
      (log lines included).
    - The objects of moviepy (the 1.0 releases, which provide
      [moviepy.editor]), numpy, PIL, gTTS and [os] are modelled by the
      attributes and methods the program uses; every such definition says
      which library call it stands for.
    - [self.log_file] is open from [__init__] to the [finally] clause of
      [create_video]; one run on a fresh generator is modelled, so [log]
      itself never raises.  A log line is the list of the pieces of its
      f-string; the time stamp [log] adds and the line breaks that open
      some messages are left out. *)

From Stdlib Require Import Ascii String List ZArith QArith Qround Lia Bool.
From Stdlib Require Import DecimalString.
From Stdlib Require PrimFloat FloatOps Uint63.
Import ListNotations.

Open Scope string_scope.
Open Scope list_scope.
Open Scope Q_scope.

(* ================================================================= *)
(** ** Exceptions and results *)

(** A Python exception: the name of its class and [str(e)]. *)
Record Exception : Type := mkExc { exc_type : string; exc_msg : string }.

Inductive result (A : Type) : Type :=
| Ok (a : A)
| Raise (e : Exception).
Arguments Ok {A} a.
Arguments Raise {A} e.

Definition is_ok {A} (r : result A) : bool :=
  match r with Ok _ => true | Raise _ => false end.

(* ================================================================= *)
(** ** Numbers *)

Definition Qlt_bool (a b : Q) : bool := negb (Qle_bool b a).

(** Python's [max(a, b)]: [b] when [b > a], else [a]. *)
Definition py_max2 (a b : Q) : Q := if Qlt_bool a b then b else a.

(** Python's [max(l)] on a list; [ValueError] on the empty list. *)
Definition py_max (l : list Q) : result Q :=
  match l with
  | [] => Raise (mkExc "ValueError" "max() arg is an empty sequence")
  | x :: xs => Ok (fold_left py_max2 xs x)
  end.

(** The mathematical sum of a list of rationals. *)
Fixpoint Qsum (l : list Q) : Q :=
  match l with
  | [] => 0
  | x :: xs => x + Qsum xs
  end.

(** [str(i)] for a non-negative integer. *)
Definition str_of_nat (n : nat) : string :=
  NilZero.string_of_uint (Nat.to_uint n).

(* ================================================================= *)
(** ** Paths and strings *)

(** [pathlib]'s [/] and [os.path.join] on two components: an absolute
    right-hand side replaces the left one. *)
Definition path_join (dir name : string) : string :=
  match name with
  | String "/"%char _ => name
  | _ => (dir ++ "/" ++ name)%string
  end.

(** [s.endswith(suffix)]. *)
Definition endswith (s suffix : string) : bool :=
  let n := String.length s in
  let k := String.length suffix in
  if (k <=? n)%nat then String.eqb (substring (n - k) k s) suffix else false.

(** [f.endswith(('.mp4', '.MP4'))]. *)
Definition is_video_name (f : string) : bool :=
  endswith f ".mp4" || endswith f ".MP4".

(* ================================================================= *)
(** ** Media on disk *)

(** Decoded content of an audio file: its duration and its signal
    (amplitude at a time, one channel). *)
Record AudioData : Type := mkAudioData {
  ad_duration : Q;
  ad_signal : Q -> Q
}.

(** Decoded content of a video file; [vd_size] is (width, height). *)
Record VideoData : Type := mkVideoData {
  vd_size : Z * Z;
  vd_duration : Q;
  vd_fps : Q;
  vd_audio : option AudioData
}.

(** PIL image modes; JPEG can store only some of them. *)
Inductive ImgMode : Type := ModeRGB | ModeL | ModeCMYK | ModeRGBA | ModeP | ModeLA.

Definition jpeg_writable (m : ImgMode) : bool :=
  match m with
  | ModeRGB | ModeL | ModeCMYK => true
  | ModeRGBA | ModeP | ModeLA => false
  end.

(** [im.mode]. *)
Definition mode_name (m : ImgMode) : string :=
  match m with
  | ModeRGB => "RGB"
  | ModeL => "L"
  | ModeCMYK => "CMYK"
  | ModeRGBA => "RGBA"
  | ModeP => "P"
  | ModeLA => "LA"
  end.

Record ImageData : Type := mkImageData {
  im_size : Z * Z;
  im_mode : ImgMode
}.

Inductive File : Type :=
| FAudio (d : AudioData)
| FVideo (v : VideoData)
| FImage (i : ImageData)
| FOther.


(** [os.path.join(a, b)]. *)
Definition os_path_join (a b : string) : string :=
  match b with
  | String "/"%char _ => b
  | _ => if (String.eqb a "" || endswith a "/")%bool then (a ++ b)%string
         else (a ++ "/" ++ b)%string
  end.

(** Python's [int(x)] on a float: truncation towards zero. *)
Definition py_int (x : Q) : Z :=
  if Qlt_bool x 0 then Qceiling x else Qfloor x.

(* ================================================================= *)
(** ** Binary64 arithmetic *)

(** The integer nearest to [n / d] for [0 <= n] and [0 < d], a tie going
    to the even one. *)
Definition round_half_even (n d : Z) : Z :=
  let q := (n / d)%Z in
  match (2 * (n mod d) ?= d)%Z with
  | Lt => q
  | Gt => (q + 1)%Z
  | Eq => if Z.even q then q else (q + 1)%Z
  end.

(** The integer [e] with [2 ^ e <= n / d < 2 ^ (e + 1)], for [0 < n] and
    [0 < d]. *)
Definition ilog2_ratio (n d : Z) : Z :=
  let e := (Z.log2 n - Z.log2 d)%Z in
  if (n * 2 ^ Z.max 0 (- e) <? d * 2 ^ Z.max 0 e)%Z then (e - 1)%Z else e.

(** The double nearest to the real number [x] (IEEE 754 binary64, round to
    nearest, ties to even): [x] is rounded to a multiple of [2 ^ k], where
    [k] leaves 53 significant bits and is at least -1074 (subnormals).
    This is the rounding of every operation on Python floats, and of
    [a / b] on two [int]s.  The exponent is not bounded above: magnitudes
    from [2 ^ 1024] on, where Python raises [OverflowError] or yields
    [inf], are out of the reach of frame sizes and are not modelled. *)
Definition binary64 (x : Q) : Q :=
  let n := Z.abs (Qnum x) in
  let d := Zpos (Qden x) in
  if (n =? 0)%Z then 0
  else
    let k := Z.max (ilog2_ratio n d - 52) (-1074) in
    let m := round_half_even (n * 2 ^ Z.max 0 (- k)) (d * 2 ^ Z.max 0 k) in
    let v := if (0 <=? k)%Z then inject_Z (m * 2 ^ k)
             else m # Z.to_pos (2 ^ (- k)) in
    if (Qnum x <? 0)%Z then - v else v.

(** [x * y] on two floats. *)
Definition float_mul (x y : Q) : Q := binary64 (x * y).

(** The names bound in the global namespace of the module when a method
    runs: those imported in lines 1 to 12, and the class and function the
    module defines. *)
Definition module_globals : list string :=
  [ "VideoFileClip"; "ImageClip"; "AudioFileClip"; "concatenate_videoclips";
    "CompositeAudioClip"; "CompositeVideoClip"; "gTTS"; "os"; "List"; "Dict";
    "Tuple"; "Path"; "librosa"; "sf"; "np"; "datetime"; "Image";
    "VideoGenerator"; "main" ].

(** Looking up a global name that is not a builtin ([LOAD_GLOBAL]). *)
Definition load_global (id : string) : result unit :=
  if existsb (String.eqb id) module_globals then Ok tt
  else Raise (mkExc "NameError" ("name '" ++ id ++ "' is not defined")%string).

(* ================================================================= *)
(** ** The doubles of the machine *)

(** [binary64] is compared below with the binary64 arithmetic built into
    the proof assistant, on the quotients and products the program
    computes. *)
Definition double_of_Z (z : Z) : PrimFloat.float :=
  PrimFloat.of_uint63 (Uint63.of_Z z).

Definition Q_of_double (f : PrimFloat.float) : Q :=
  match FloatOps.Prim2SF f with
  | SpecFloat.S754_finite s m e =>
      let v := if (0 <=? e)%Z then inject_Z (Zpos m * 2 ^ e)
               else Zpos m # Z.to_pos (2 ^ (- e)) in
      if s then - v else v
  | _ => 0
  end.

(** [W / w] and [(W / w) * w] computed both ways. *)
Definition doubles_agree (W w : Z) : bool :=
  let q := PrimFloat.div (double_of_Z W) (double_of_Z w) in
  Qeq_bool (binary64 (inject_Z W / inject_Z w)) (Q_of_double q)
  && Qeq_bool (float_mul (binary64 (inject_Z W / inject_Z w))
                 (binary64 (inject_Z w)))
       (Q_of_double (PrimFloat.mul q (double_of_Z w))).

(* ================================================================= *)
(** ** Audio clips (moviepy) *)

(** The attributes of a moviepy audio clip the program relies on.
    [a_make_frame t] is the amplitude at clip-local time [t].  Every audio
    clip of the program comes from a file, so durations are always known. *)
Record AudioClip : Type := mkAudioClip {
  a_filename : option string;
  a_start : Q;
  a_duration : Q;
  a_end : Q;
  a_make_frame : Q -> Q
}.

Definition clip_of_audio_data (path : string) (d : AudioData) : AudioClip :=
  mkAudioClip (Some path) 0 (ad_duration d) (ad_duration d) (ad_signal d).

(** [clip.set_start(t)]: the end moves with the start. *)
Definition a_set_start (c : AudioClip) (t : Q) : AudioClip :=
  mkAudioClip (a_filename c) t (a_duration c) (t + a_duration c) (a_make_frame c).

(** [clip.set_duration(d)]. *)
Definition a_set_duration (c : AudioClip) (d : Q) : AudioClip :=
  mkAudioClip (a_filename c) (a_start c) d (a_start c + d) (a_make_frame c).

(** [clip.subclip(t_start, t_end)]. *)
Definition a_subclip (c : AudioClip) (t_start t_end : Q) : result AudioClip :=
  let t_start := if Qlt_bool t_start 0 then a_duration c + t_start else t_start in
  if Qlt_bool (a_duration c) t_start then
    Raise (mkExc "ValueError" "t_start should be smaller than the clip's duration")
  else
    let t_end := if Qlt_bool t_end 0 then a_duration c + t_end else t_end in
    let duration := t_end - t_start in
    Ok (mkAudioClip (a_filename c) (a_start c) duration (a_start c + duration)
          (fun t => a_make_frame c (t + t_start))).

(** [clip.volumex(factor)]: every sample is multiplied by [factor]. *)
Definition a_volumex (c : AudioClip) (factor : Q) : AudioClip :=
  mkAudioClip (a_filename c) (a_start c) (a_duration c) (a_end c)
    (fun t => factor * a_make_frame c t).

(** [clip.is_playing(t)]. *)
Definition a_is_playing (c : AudioClip) (t : Q) : bool :=
  Qle_bool (a_start c) t && Qlt_bool t (a_end c).

(** [CompositeAudioClip(clips)]: lasts until the last clip ends, and plays
    the sum of the clips that are playing, each from its own start. *)
Definition CompositeAudioClip (clips : list AudioClip) : result AudioClip :=
  match py_max (map a_end clips) with
  | Raise e => Raise e
  | Ok m =>
      Ok (mkAudioClip None 0 m m
            (fun t => Qsum (map (fun c => a_make_frame c (t - a_start c))
                              (filter (fun c => a_is_playing c t) clips))))
  end.

(** The start times [np.cumsum([0] + durations)] gives to the clips. *)
Fixpoint place_in_sequence (clips : list AudioClip) (t : Q) : list AudioClip :=
  match clips with
  | [] => []
  | c :: rest => a_set_start c t :: place_in_sequence rest (t + a_duration c)
  end.

(** moviepy's [concatenate_audioclips(clips)]: the clips one after the
    other. *)
Definition concatenate_audioclips (clips : list AudioClip) : result AudioClip :=
  match CompositeAudioClip (place_in_sequence clips 0) with
  | Raise e => Raise e
  | Ok c => Ok (a_set_duration c (Qsum (map a_duration clips)))
  end.

(* ================================================================= *)
(** ** Frames (numpy) *)

(** A frame is an array of shape (rows, columns, 3); it is represented by
    its shape (rows, columns), the pixel values play no part. *)
Definition Frame : Type := (Z * Z)%type.

(** [np.zeros((rows, cols, 3), dtype='uint8')]. *)
Definition np_zeros (rows cols : Z) : Frame := (rows, cols).

(** Length of the slice [a:b] of an axis of length [n]: negative bounds
    count from the end, and both bounds are clipped to the axis. *)
Definition slice_bound (n i : Z) : Z :=
  let i := if (i <? 0)%Z then (i + n)%Z else i in
  if (i <? 0)%Z then 0%Z else if (n <? i)%Z then n else i.

Definition slice_length (n a b : Z) : Z :=
  Z.max 0 (slice_bound n b - slice_bound n a).

(** A value of extent [v] can be stored into a slice of extent [l] when
    the extents agree or the value has extent 1 (broadcasting). *)
Definition broadcastable (v l : Z) : bool := (v =? l)%Z || (v =? 1)%Z.

(** [full[y0:y1, x0:x1] = value]: the array keeps its shape; the store is
    refused when the value does not fit the slice. *)
Definition np_store (full : Frame) (y0 y1 x0 x1 : Z) (value : Frame) : result Frame :=
  let '(rows, cols) := full in
  if broadcastable (fst value) (slice_length rows y0 y1)
     && broadcastable (snd value) (slice_length cols x0 x1)
  then Ok full
  else Raise (mkExc "ValueError" "could not broadcast input array into shape").

(* ================================================================= *)
(** ** Video clips (moviepy) *)

(** The file a clip reads its pictures from. *)
Inductive Origin : Type :=
| FromVideoFile (path : string)
| FromImageFile (path : string)
| FromFrames.

(** The attributes of a moviepy video clip the program relies on; [v_size]
    is (width, height), and an attribute that can be [None] is an option. *)
Record VideoClip : Type := mkVideoClip {
  v_origin : Origin;
  v_size : Z * Z;
  v_start : Q;
  v_duration : option Q;
  v_end : option Q;
  v_fps : option Q;
  v_audio : option AudioClip;
  v_get_frame : Q -> result Frame
}.

(** [clip.resize(ratio)] with a float: every frame is resampled to
    [int(ratio * w)] by [int(ratio * h)], the products being those of
    Python floats ([w] and [h] are converted to floats first). *)
Definition v_resize (c : VideoClip) (ratio : Q) : VideoClip :=
  let w := py_int (float_mul ratio (binary64 (inject_Z (fst (v_size c))))) in
  let h := py_int (float_mul ratio (binary64 (inject_Z (snd (v_size c))))) in
  mkVideoClip (v_origin c) (w, h) (v_start c) (v_duration c) (v_end c)
    (v_fps c) (v_audio c)
    (fun t => match v_get_frame c t with
              | Ok _ => Ok (h, w)
              | Raise e => Raise e
              end).

(** [clip.set_duration(d)]. *)
Definition v_set_duration (c : VideoClip) (d : option Q) : VideoClip :=
  mkVideoClip (v_origin c) (v_size c) (v_start c) d
    (option_map (Qplus (v_start c)) d) (v_fps c) (v_audio c) (v_get_frame c).

(** [clip.set_fps(fps)]. *)
Definition v_set_fps (c : VideoClip) (fps : option Q) : VideoClip :=
  mkVideoClip (v_origin c) (v_size c) (v_start c) (v_duration c) (v_end c)
    fps (v_audio c) (v_get_frame c).

(** [clip.set_audio(audio)]. *)
Definition v_set_audio (c : VideoClip) (audio : AudioClip) : VideoClip :=
  mkVideoClip (v_origin c) (v_size c) (v_start c) (v_duration c) (v_end c)
    (v_fps c) (Some audio) (v_get_frame c).

(** [clip.set_start(t)]; the sound track moves with the pictures. *)
Definition v_set_start (c : VideoClip) (t : Q) : VideoClip :=
  mkVideoClip (v_origin c) (v_size c) t (v_duration c)
    (option_map (Qplus t) (v_duration c)) (v_fps c)
    (option_map (fun a => a_set_start a t) (v_audio c)) (v_get_frame c).

(** [clip.subclip(t_start, t_end)]; the sound track is cut the same way. *)
Definition v_subclip (c : VideoClip) (t_start t_end : Q) : result VideoClip :=
  let dur := match v_duration c with Some d => d | None => 0 end in
  let t_start := if Qlt_bool t_start 0 then dur + t_start else t_start in
  if match v_duration c with Some d => Qlt_bool d t_start | None => false end then
    Raise (mkExc "ValueError" "t_start should be smaller than the clip's duration")
  else
    let t_end := if Qlt_bool t_end 0 then dur + t_end else t_end in
    let duration := t_end - t_start in
    let cut := mkVideoClip (v_origin c) (v_size c) (v_start c) (Some duration)
                 (Some (v_start c + duration)) (v_fps c) None
                 (fun t => v_get_frame c (t + t_start)) in
    match v_audio c with
    | None => Ok cut
    | Some a =>
        match a_subclip a t_start t_end with
        | Ok a' => Ok (v_set_audio cut a')
        | Raise e => Raise e
        end
    end.

(** [VideoFileClip(None, make_frame=make_frame)].  The parameters of the
    constructor are [filename, has_mask, audio, audio_buffersize,
    target_resolution, resize_algorithm, audio_fps, audio_nbytes, verbose,
    fps_source]: Python rejects the keyword before anything is built. *)
Definition VideoFileClip_make_frame (make_frame : Q -> result Frame)
  : result VideoClip :=
  Raise (mkExc "TypeError" "__init__() got an unexpected keyword argument 'make_frame'").

(** A [CompositeVideoClip]: the clips laid over each other at their starts. *)
Record CompositeVideo : Type := mkCompositeVideo {
  cv_clips : list VideoClip;
  cv_size : Z * Z;
  cv_duration : option Q;
  cv_audio : option AudioClip
}.

(** The ends of the clips, when every clip has one. *)
Fixpoint all_ends (clips : list VideoClip) : option (list Q) :=
  match clips with
  | [] => Some []
  | c :: rest =>
      match v_end c, all_ends rest with
      | Some e, Some es => Some (e :: es)
      | _, _ => None
      end
  end.

(** The sound tracks of the clips that have one. *)
Fixpoint sound_tracks (clips : list VideoClip) : list AudioClip :=
  match clips with
  | [] => []
  | c :: rest =>
      match v_audio c with
      | Some a => a :: sound_tracks rest
      | None => sound_tracks rest
      end
  end.

(** [CompositeVideoClip(clips)]: the size is that of the first clip, the
    duration the latest end, the sound the mix of the clips' sounds. *)
Definition CompositeVideoClip (clips : list VideoClip) : result CompositeVideo :=
  match clips with
  | [] => Raise (mkExc "IndexError" "list index out of range")
  | first :: _ =>
      let duration :=
        match all_ends clips with
        | Some es => match py_max es with Ok m => Some m | Raise _ => None end
        | None => None
        end in
      let audio :=
        match sound_tracks clips with
        | [] => None
        | tracks => match CompositeAudioClip tracks with
                    | Ok a => Some a
                    | Raise _ => None
                    end
        end in
      Ok (mkCompositeVideo clips (v_size first) duration audio)
  end.

(** [video.set_audio(audio)] on a composite. *)
Definition cv_set_audio (v : CompositeVideo) (audio : AudioClip) : CompositeVideo :=
  mkCompositeVideo (cv_clips v) (cv_size v) (cv_duration v) (Some audio).

(** What [write_videofile] is called on. *)
Inductive Movie : Type :=
| MClip (c : VideoClip)
| MComposite (v : CompositeVideo).

(* ================================================================= *)
(** ** Log lines and the trace of effects *)

(** The pieces of an f-string: literal text and formatted holes. *)
Inductive Frag : Type :=
| Str (s : string)          (* literal text, or a string-valued hole *)
| Fix3 (q : Q)              (* a hole formatted with [:.3f] *)
| Size (wh : Z * Z).        (* a hole holding a (width, height) size *)

Definition LogLine : Type := list Frag.

(** Keyword arguments of [write_videofile] as the two call sites give them. *)
Record EncodeParams : Type := mkEncodeParams {
  ep_codec : string;
  ep_audio : bool;                  (* [audio=False] switches the sound off *)
  ep_audio_codec : option string;
  ep_fps : Q;
  ep_bitrate : string;
  ep_threads : option Z;
  ep_preset : option string;
  ep_ffmpeg_params : list string
}.

(** External effects, in the order they happen. *)
Inductive Event : Type :=
| EvLog (line : LogLine)                           (* [self.log(...)] *)
| EvTtsSave (text lang path : string)              (* [gTTS(text, lang).save(path)] *)
| EvAudioLoad (path : string)                      (* [AudioFileClip(path)] *)
| EvListDir (folder : string)                      (* [os.listdir(folder)] *)
| EvPathExists (path : string)                     (* [os.path.exists(path)] *)
| EvVideoLoad (path : string)                      (* [VideoFileClip(path)] *)
| EvImageOpen (path : string)                      (* [Image.open(path)] *)
| EvImageSave (path : string)                      (* [img.save(path, quality=95)] *)
| EvImageLoad (path : string)                      (* [ImageClip(path)] *)
| EvWriteVideofile (m : Movie) (path : string) (p : EncodeParams)
                                                   (* [m.write_videofile(path, ...)] *)
| EvLogClose.                                      (* [self.log_file.close()] *)

(* ================================================================= *)
(** ** The outside world and the state of a run *)

(** What the program cannot decide: the speech provider (indexed by the
    number of calls made so far, so that two calls with the same text may
    differ), directory listings, whether the encoder accepts a file, and
    the release of PIL: since Pillow 8.3 a failed [save] removes the file
    it had created, earlier releases leave it there, empty. *)
Record World : Type := mkWorld {
  gtts : nat -> string -> string -> result AudioData;
  listdir : string -> result (list string);
  encoder : string -> result unit;
  pil_removes_failed_save : bool
}.

Record State : Type := mkState {
  files : string -> option File;
  tts_calls : nat;
  trace : list Event
}.

Definition write_file (p : string) (f : File) (fs : string -> option File)
  : string -> option File :=
  fun q => if String.eqb q p then Some f else fs q.

(* ================================================================= *)
(** ** The state-and-exception monad *)

Definition M (A : Type) : Type := State -> result A * State.

Definition ret {A} (a : A) : M A := fun st => (Ok a, st).

Definition raise {A} (e : Exception) : M A := fun st => (Raise e, st).

Definition bind {A B} (m : M A) (k : A -> M B) : M B :=
  fun st =>
    match m st with
    | (Ok a, st') => k a st'
    | (Raise e, st') => (Raise e, st')
    end.

Declare Scope monad_scope.
Delimit Scope monad_scope with monad.
Notation "x <- m ;; k" := (bind m (fun x => k))
  (at level 61, m at next level, right associativity) : monad_scope.
Notation "' pat <- m ;; k" := (bind m (fun x => match x with pat => k end))
  (at level 61, pat pattern, m at next level, right associativity) : monad_scope.
Notation "m ;; k" := (bind m (fun _ => k))
  (at level 61, right associativity) : monad_scope.
Open Scope monad_scope.

(** [try: m  except Exception as e: h e]. *)
Definition try_except {A} (m : M A) (h : Exception -> M A) : M A :=
  fun st =>
    match m st with
    | (Ok a, st') => (Ok a, st')
    | (Raise e, st') => h e st'
    end.

(** [try: m  finally: f]; [f] runs on both exits. *)
Definition try_finally {A} (m : M A) (f : M unit) : M A :=
  fun st =>
    match m st with
    | (r, st') =>
        match f st' with
        | (Ok _, st'') => (r, st'')
        | (Raise e, st'') => (Raise e, st'')
        end
    end.

(** Lifting of a pure result. *)
Definition lift {A} (r : result A) : M A := fun st => (r, st).

Definition emit (e : Event) : M unit :=
  fun st => (Ok tt, mkState (files st) (tts_calls st) (trace st ++ [e])).

(** [self.log(message)]. *)
Definition log (line : LogLine) : M unit := emit (EvLog line).

(* ================================================================= *)
(** ** Library calls with effects *)

(** [AudioFileClip(path)]: decodes an audio file, or the sound track of a
    video file; anything else makes the decoder fail. *)
Definition AudioFileClip (path : string) : M AudioClip :=
  emit (EvAudioLoad path) ;;
  fun st =>
    match files st path with
    | Some (FAudio d) => (Ok (clip_of_audio_data path d), st)
    | Some (FVideo v) =>
        match vd_audio v with
        | Some d => (Ok (clip_of_audio_data path d), st)
        | None => (Raise (mkExc "OSError" ("no audio stream in " ++ path)%string), st)
        end
    | _ => (Raise (mkExc "OSError" ("could not read " ++ path)%string), st)
    end.

(** [gTTS(text=text, lang=lang).save(path)]: one request to the provider;
    on success the mp3 is on disk. *)
Definition gTTS_save (w : World) (text lang path : string) : M unit :=
  fun st =>
    let tr := trace st ++ [EvTtsSave text lang path] in
    match gtts w (tts_calls st) text lang with
    | Ok d => (Ok tt, mkState (write_file path (FAudio d) (files st)) (S (tts_calls st)) tr)
    | Raise e => (Raise e, mkState (files st) (S (tts_calls st)) tr)
    end.

(** [os.listdir(folder)]. *)
Definition os_listdir (w : World) (folder : string) : M (list string) :=
  emit (EvListDir folder) ;; lift (listdir w folder).

(** [os.path.exists(path)]. *)
Definition os_path_exists (path : string) : M bool :=
  emit (EvPathExists path) ;;
  fun st => (Ok (match files st path with Some _ => true | None => false end), st).

Definition clip_of_video_data (path : string) (v : VideoData) : VideoClip :=
  mkVideoClip (FromVideoFile path) (vd_size v) 0 (Some (vd_duration v))
    (Some (vd_duration v)) (Some (vd_fps v))
    (option_map (clip_of_audio_data path) (vd_audio v))
    (fun _ => Ok (snd (vd_size v), fst (vd_size v))).

(** [VideoFileClip(path)]. *)
Definition VideoFileClip (path : string) : M VideoClip :=
  emit (EvVideoLoad path) ;;
  fun st =>
    match files st path with
    | Some (FVideo v) => (Ok (clip_of_video_data path v), st)
    | _ => (Raise (mkExc "OSError" ("could not read " ++ path)%string), st)
    end.

(** [Image.open(path)]. *)
Definition Image_open (path : string) : M ImageData :=
  emit (EvImageOpen path) ;;
  fun st =>
    match files st path with
    | Some (FImage i) => (Ok i, st)
    | Some _ => (Raise (mkExc "UnidentifiedImageError" path), st)
    | None => (Raise (mkExc "FileNotFoundError" path), st)
    end.

(** [img.resize(size, Image.LANCZOS)]: the picture takes the requested
    size, whatever its proportions were. *)
Definition Image_resize (img : ImageData) (size : Z * Z) : result ImageData :=
  if ((0 <? fst size) && (0 <? snd size))%Z
  then Ok (mkImageData size (im_mode img))
  else Raise (mkExc "ValueError" "height and width must be > 0").

(** [img.save(path, quality=95)] with a path in [.jpg].  PIL opens the
    destination for writing, which creates or empties it, before the JPEG
    plugin looks at the mode; when the plugin refuses the mode, a file that
    was there before stays, emptied, and a file that [save] created is
    removed or left empty, depending on the release. *)
Definition Image_save_jpeg (w : World) (img : ImageData) (path : string)
  : M unit :=
  emit (EvImageSave path) ;;
  fun st =>
    if jpeg_writable (im_mode img)
    then (Ok tt, mkState (write_file path (FImage img) (files st))
                   (tts_calls st) (trace st))
    else
      let left :=
        match files st path with
        | Some _ => write_file path FOther (files st)
        | None =>
            if pil_removes_failed_save w then files st
            else write_file path FOther (files st)
        end in
      (Raise (mkExc "OSError"
                ("cannot write mode " ++ mode_name (im_mode img) ++ " as JPEG")%string),
       mkState left (tts_calls st) (trace st)).

(** [ImageClip(path)]: a clip that shows the picture; its duration and
    frame rate are not set yet. *)
Definition ImageClip (path : string) : M VideoClip :=
  emit (EvImageLoad path) ;;
  fun st =>
    match files st path with
    | Some (FImage i) =>
        (Ok (mkVideoClip (FromImageFile path) (im_size i) 0 None None None None
               (fun _ => Ok (snd (im_size i), fst (im_size i)))), st)
    | _ => (Raise (mkExc "OSError" ("could not read " ++ path)%string), st)
    end.

(** What the encoder leaves on disk. *)
Definition encoded (m : Movie) (p : EncodeParams) : VideoData :=
  let audio_of (a : option AudioClip) :=
    if ep_audio p
    then option_map (fun c => mkAudioData (a_duration c) (a_make_frame c)) a
    else None in
  let length_of (d : option Q) := match d with Some x => x | None => 0 end in
  match m with
  | MClip c =>
      mkVideoData (v_size c) (length_of (v_duration c)) (ep_fps p) (audio_of (v_audio c))
  | MComposite v =>
      mkVideoData (cv_size v) (length_of (cv_duration v)) (ep_fps p) (audio_of (cv_audio v))
  end.

(** [m.write_videofile(path, ...)]: the encoder either writes the file or
    fails. *)
Definition write_videofile (w : World) (m : Movie) (path : string)
    (p : EncodeParams) : M unit :=
  emit (EvWriteVideofile m path p) ;;
  fun st =>
    match encoder w path with
    | Ok _ => (Ok tt, mkState (write_file path (FVideo (encoded m p)) (files st))
                        (tts_calls st) (trace st))
    | Raise e => (Raise e, st)
    end.

(* ================================================================= *)
(** ** The generator object *)

(** One entry of [self.segments]. *)
Record Segment : Type := mkSegment {
  name : string;
  text : string;
  start : Z;
  target_duration : Z
}.

(** [self.dirs]. *)
Record Dirs : Type := mkDirs {
  dir_debug : string;
  dir_output : string;
  dir_audio : string;
  dir_temp : string;
  dir_logs : string
}.

Record VideoGenerator : Type := mkVideoGenerator {
  base_dir : string;
  dirs : Dirs;
  segments : list Segment;
  video_size : Z * Z;
  video_bitrate : string
}.

(** [setup_directories], given the working directory and the time stamp. *)
Definition setup_directories (cwd timestamp : string) : Dirs :=
  mkDirs (path_join (path_join cwd "debug") timestamp)
         (path_join cwd "output")
         (path_join (path_join cwd "audio") timestamp)
         (path_join (path_join cwd "temp") timestamp)
         (path_join cwd "logs").

(** [setup_segments]. *)
Definition setup_segments : list Segment :=
  [ mkSegment "intro" "王一博周边定制排行" 0 3;
    mkSegment "bronze" "青铜浴巾毛巾" 3 3;
    mkSegment "silver" "白银马克杯" 6 3;
    mkSegment "gold" "黄金毛巾" 9 3;
    mkSegment "platinum" "铂金带帽卫衣" 12 3;
    mkSegment "diamond" "钻石陶瓷杯具" 15 3;
    mkSegment "king" "王者门帘" 18 3 ].

(** [VideoGenerator.__init__]. *)
Definition VideoGenerator_init (cwd timestamp : string) : VideoGenerator :=
  mkVideoGenerator cwd (setup_directories cwd timestamp) setup_segments
    (1080, 1440)%Z "8000k".

(* ================================================================= *)
(** ** [generate_audio_segments] *)

(** An entry of the narration timeline: (clip, start, actual duration). *)
Definition AudioSegment : Type := (AudioClip * Q * Q)%type.

(** [self.dirs['audio'] / f"{segment['name']}_voice.mp3"]. *)
Definition voice_path (self : VideoGenerator) (segment : Segment) : string :=
  path_join (dir_audio (dirs self)) (name segment ++ "_voice.mp3")%string.

(** The body of the [try] of one iteration: returns the new values of
    [audio_segments] and [current_start]. *)
Definition generate_audio_segment (w : World) (self : VideoGenerator)
    (segment : Segment) (audio_segments : list AudioSegment) (current_start : Q)
  : M (list AudioSegment * Q) :=
  log [Str "--- 处理音频片段: "; Str (name segment); Str " ---"] ;;
  log [Str "文本内容: "; Str (text segment)] ;;
  let audio_path := voice_path self segment in
  gTTS_save w (text segment) "zh-cn" audio_path ;;
  audio <- AudioFileClip audio_path ;;
  let actual_duration := a_duration audio in
  let audio := a_set_start audio current_start in
  log [Str "音频信息:"] ;;
  log [Str "- 文件: "; Str audio_path] ;;
  log [Str "- 实际时长: "; Fix3 actual_duration; Str "秒"] ;;
  log [Str "- 开始时间: "; Fix3 current_start; Str "秒"] ;;
  ret (audio_segments ++ [(audio, current_start, actual_duration)],
       current_start + actual_duration).

(** The [except] clause of one iteration: log, then re-raise. *)
Definition generate_audio_failed (segment : Segment) (e : Exception)
  : M (list AudioSegment * Q) :=
  log [Str "错误: 生成音频失败 "; Str (name segment); Str ": "; Str (exc_msg e)] ;;
  raise e.

(** The [for segment in self.segments] loop with its two accumulators. *)
Fixpoint generate_audio_loop (w : World) (self : VideoGenerator)
    (todo : list Segment) (audio_segments : list AudioSegment) (current_start : Q)
  : M (list AudioSegment) :=
  match todo with
  | [] => ret audio_segments
  | segment :: rest =>
      '(audio_segments', current_start') <-
         try_except
           (generate_audio_segment w self segment audio_segments current_start)
           (generate_audio_failed segment) ;;
      generate_audio_loop w self rest audio_segments' current_start'
  end.

Definition generate_audio_segments (w : World) (self : VideoGenerator)
  : M (list AudioSegment) :=
  log [Str "========== 开始生成音频片段 =========="] ;;
  generate_audio_loop w self (segments self) [] 0.

(** [CompositeAudioClip([audio for audio, _, _ in audio_segments])]. *)
Definition narration_mix (audio_segments : list AudioSegment) : result AudioClip :=
  CompositeAudioClip (map (fun x : AudioSegment => fst (fst x)) audio_segments).

(* ================================================================= *)
(** ** [resize_and_pad_video] *)

(** Python's [a / b] on two integers: the double nearest to the
    quotient. *)
Definition py_truediv (a b : Z) : result Q :=
  if (b =? 0)%Z then Raise (mkExc "ZeroDivisionError" "division by zero")
  else Ok (binary64 (inject_Z a / inject_Z b)).

Definition size_eqb (a b : Z * Z) : bool :=
  ((fst a =? fst b) && (snd a =? snd b))%Z.

(** The nested function [make_frame(t)]: a black canvas of the target size
    with the scaled frame stored at the centring offsets. *)
Definition make_frame (scaled_clip : VideoClip) (target_width target_height : Z)
    (t : Q) : result Frame :=
  match v_get_frame scaled_clip t with
  | Raise e => Raise e
  | Ok scaled_frame =>
      let full_frame := np_zeros target_height target_width in
      let y_offset := ((target_height - fst scaled_frame) / 2)%Z in
      let x_offset := ((target_width - snd scaled_frame) / 2)%Z in
      np_store full_frame
        y_offset (y_offset + fst scaled_frame)
        x_offset (x_offset + snd scaled_frame)
        scaled_frame
  end.

Definition resize_and_pad_video (self : VideoGenerator) (clip : VideoClip)
  : M VideoClip :=
  log [Str "调整视频尺寸:"] ;;
  log [Str "原始尺寸: "; Size (v_size clip)] ;;
  let '(target_width, target_height) := video_size self in
  width_ratio <- lift (py_truediv target_width (fst (v_size clip))) ;;
  height_ratio <- lift (py_truediv target_height (snd (v_size clip))) ;;
  let scale_ratio := py_max2 width_ratio height_ratio in
  let scaled_clip := v_resize clip scale_ratio in
  log [Str "缩放后尺寸: "; Size (v_size scaled_clip)] ;;
  if negb (size_eqb (v_size scaled_clip) (video_size self)) then
    log [Str "添加黑色填充以匹配目标尺寸"] ;;
    final_clip <- lift (VideoFileClip_make_frame
                          (make_frame scaled_clip target_width target_height)) ;;
    let final_clip := v_set_duration final_clip (v_duration clip) in
    let final_clip := v_set_fps final_clip (v_fps clip) in
    let final_clip :=
      match v_audio clip with
      | Some audio => v_set_audio final_clip audio
      | None => final_clip
      end in
    log [Str "最终尺寸: "; Size (v_size final_clip)] ;;
    ret final_clip
  else
    ret scaled_clip.

(* ================================================================= *)
(** ** [process_video_by_duration] *)

Definition debug_params (self : VideoGenerator) : EncodeParams :=
  mkEncodeParams "libx264" false None 24 (video_bitrate self) None None [].

(** [self.dirs['debug'] / f"video_{name}_debug.mp4"]. *)
Definition debug_video_path (self : VideoGenerator) (name : string) : string :=
  path_join (dir_debug (dirs self)) ("video_" ++ name ++ "_debug.mp4")%string.

Definition process_video_by_duration (w : World) (self : VideoGenerator)
    (video_path : string) (start duration : Q) (name : string) : M VideoClip :=
  try_except
    (log [Str "=== 处理视频片段: "; Str name; Str " ==="] ;;
     video <- VideoFileClip video_path ;;
     video <- resize_and_pad_video self video ;;
     clip <- lift (v_subclip video start (start + duration)) ;;
     let debug_path := debug_video_path self name in
     write_videofile w (MClip clip) debug_path (debug_params self) ;;
     ret clip)
    (fun e => log [Str "错误: 处理视频失败: "; Str (exc_msg e)] ;; raise e).

(* ================================================================= *)
(** ** [create_image_video] *)

(** [self.dirs['temp'] / f"resized_{name}.jpg"]. *)
Definition temp_image_path (self : VideoGenerator) (name : string) : string :=
  path_join (dir_temp (dirs self)) ("resized_" ++ name ++ ".jpg")%string.

Definition create_image_video (w : World) (self : VideoGenerator)
    (image_path : string) (duration : Q) (name : string) : M VideoClip :=
  try_except
    (log [Str "=== 处理图片视频: "; Str name; Str " ==="] ;;
     img <- Image_open image_path ;;
     img <- lift (Image_resize img (video_size self)) ;;
     let temp_image_path := temp_image_path self name in
     Image_save_jpeg w img temp_image_path ;;
     image_clip <- ImageClip temp_image_path ;;
     let image_clip := v_set_duration image_clip (Some duration) in
     let image_clip := v_set_fps image_clip (Some 24) in
     log [Str "图片视频信息:"] ;;
     log [Str "- 尺寸: "; Size (v_size image_clip)] ;;
     log [Str "- 持续时间: "; Fix3 duration; Str "秒"] ;;
     ret image_clip)
    (fun e => log [Str "错误: 处理图片视频失败: "; Str (exc_msg e)] ;; raise e).

(* ================================================================= *)
(** ** [process_bgm] *)

(** [int(np.ceil(a / b))] on two floats. *)
Definition ceil_ratio (a b : Q) : result Z :=
  if Qeq_bool b 0 then Raise (mkExc "ZeroDivisionError" "float division by zero")
  else Ok (Qceiling (a / b)).

Definition process_bgm (self : VideoGenerator) (bgm_path : string)
    (total_duration : Q) : M AudioClip :=
  try_except
    (log [Str "=== 处理背景音乐 ==="] ;;
     log [Str "BGM文件: "; Str bgm_path] ;;
     bgm <- AudioFileClip bgm_path ;;
     let original_duration := a_duration bgm in
     log [Str "原始BGM时长: "; Fix3 original_duration; Str "秒"] ;;
     log [Str "需要的时长: "; Fix3 total_duration; Str "秒"] ;;
     bgm <- (if Qlt_bool original_duration total_duration then
               log [Str "BGM较短，进行循环处理..."] ;;
               repeat_times <- lift (ceil_ratio total_duration original_duration) ;;
               lift (load_global "concatenate_audioclips") ;;
               lift (concatenate_audioclips (repeat bgm (Z.to_nat repeat_times)))
             else ret bgm) ;;
     bgm <- lift (a_subclip bgm 0 total_duration) ;;
     let bgm := a_volumex bgm (3 # 10) in
     log [Str "BGM处理完成，最终时长: "; Fix3 (a_duration bgm); Str "秒"] ;;
     ret bgm)
    (fun e => log [Str "错误: 处理BGM失败: "; Str (exc_msg e)] ;; raise e).

(* ================================================================= *)
(** ** [create_video] *)

Definition final_params (self : VideoGenerator) : EncodeParams :=
  mkEncodeParams "libx264" true (Some "aac") 24 (video_bitrate self)
    (Some 4%Z) (Some "slow")
    ["-profile:v"; "high"; "-level"; "4.2"; "-pix_fmt"; "yuv420p";
     "-movflags"; "+faststart"].

(** [str(self.dirs['output'] / "final_video.mp4")]. *)
Definition output_path (self : VideoGenerator) : string :=
  path_join (dir_output (dirs self)) "final_video.mp4".

(** The truth value of [bgm_path]: [None] and the empty string are false. *)
Definition truthy (bgm_path : option string) : bool :=
  match bgm_path with
  | Some p => negb (String.eqb p "")
  | None => false
  end.

(** The loop [for i, (audio, start_time, duration) in
    enumerate(audio_segments[1:], 1)], entered with [i] at the head of
    [rest]. *)
Fixpoint create_video_images (w : World) (self : VideoGenerator)
    (image_paths : list string)
    (rest : list AudioSegment) (i : nat) (video_clips : list VideoClip)
  : M (list VideoClip) :=
  match rest with
  | [] => ret video_clips
  | (audio, start_time, duration) :: rest' =>
      video_clips' <-
        (if (i - 1 <? length image_paths)%nat then
           log [Str "处理第 "; Str (str_of_nat i); Str " 张图片..."] ;;
           image_path <-
             lift (match nth_error image_paths (i - 1) with
                   | Some p => Ok p
                   | None => Raise (mkExc "IndexError" "list index out of range")
                   end) ;;
           image_clip <- create_image_video w self image_path duration
                           ("image_" ++ str_of_nat i)%string ;;
           let image_clip := v_set_start image_clip start_time in
           ret (video_clips ++ [image_clip])
         else ret video_clips) ;;
      create_video_images w self image_paths rest' (S i) video_clips'
  end.

(** Step 4: the narration mix, and the background under it if there is
    one. *)
Definition create_video_audio (self : VideoGenerator)
    (audio_segments : list AudioSegment) (bgm_path : option string)
  : M AudioClip :=
  voice_audio <- lift (narration_mix audio_segments) ;;
  log [Str "配音总时长: "; Fix3 (a_duration voice_audio); Str "秒"] ;;
  use_bgm <- (match bgm_path with
              | Some p => if truthy bgm_path then os_path_exists p else ret false
              | None => ret false
              end) ;;
  match bgm_path, use_bgm with
  | Some p, true =>
      bgm_audio <- process_bgm self p (a_duration voice_audio) ;;
      final_audio <- lift (CompositeAudioClip [a_volumex voice_audio 1; bgm_audio]) ;;
      log [Str "已添加BGM"] ;;
      ret final_audio
  | _, _ =>
      log [Str "未找到BGM文件，仅使用配音"] ;;
      ret voice_audio
  end.

(** The body of the [try] of [create_video]. *)
Definition create_video_body (w : World) (self : VideoGenerator)
    (video_folder : string) (image_paths : list string) (bgm_path : option string)
  : M string :=
  log [Str "========== 开始生成视频 =========="] ;;
  log [Str "--- 第1步：生成音频片段 ---"] ;;
  audio_segments <- generate_audio_segments w self ;;
  log [Str "--- 第2步：处理视频片段 ---"] ;;
  names <- os_listdir w video_folder ;;
  match filter is_video_name names with
  | [] => raise (mkExc "Exception" "未找到视频文件")
  | video_file :: _ =>
      let video_path := os_path_join video_folder video_file in
      log [Str "使用视频文件: "; Str video_path] ;;
      match audio_segments with
      | [] => raise (mkExc "IndexError" "list index out of range")
      | (first_audio, first_start, first_duration) :: rest =>
          first_clip <- process_video_by_duration w self video_path 0
                          first_duration "intro" ;;
          let first_clip := v_set_start first_clip first_start in
          video_clips <- create_video_images w self image_paths rest 1 [first_clip] ;;
          log [Str "--- 第3步：合并视频片段 ---"] ;;
          final_video <- lift (CompositeVideoClip video_clips) ;;
          log [Str "--- 第4步：合并音频 ---"] ;;
          final_audio <- create_video_audio self audio_segments bgm_path ;;
          log [Str "--- 第5步：添加音频到视频 ---"] ;;
          let final_video := cv_set_audio final_video final_audio in
          log [Str "--- 第6步：导出最终视频 ---"] ;;
          log [Str "输出路径: "; Str (output_path self)] ;;
          write_videofile w (MComposite final_video) (output_path self)
            (final_params self) ;;
          log [Str "处理完成!"] ;;
          ret (output_path self)
      end
  end.

Definition create_video (w : World) (self : VideoGenerator)
    (video_folder : string) (image_paths : list string) (bgm_path : option string)
  : M string :=
  try_finally
    (try_except
       (create_video_body w self video_folder image_paths bgm_path)
       (fun e => log [Str "错误: 创建视频失败: "; Str (exc_msg e)] ;; raise e))
    (emit EvLogClose).

(* ================================================================= *)
(** ** Descriptions of runs, used to state the properties *)

(** The timeline the loop builds from time [t] on when the provider answers
    the captions [segs] with the clips [clips], written as a function of
    the clips alone. *)
Fixpoint timeline_from (self : VideoGenerator) (segs : list Segment)
    (clips : list AudioData) (t : Q) : list AudioSegment :=
  match segs, clips with
  | seg :: segs', c :: clips' =>
      (a_set_start (clip_of_audio_data (voice_path self seg) c) t, t, ad_duration c)
        :: timeline_from self segs' clips' (t + ad_duration c)
  | _, _ => []
  end.

(** The provider answers the captions [segs], asked from call number [k]
    on, with the clips [clips]. *)
Fixpoint synthesizes (w : World) (k : nat) (segs : list Segment)
    (clips : list AudioData) : Prop :=
  match segs, clips with
  | [], [] => True
  | seg :: segs', c :: clips' =>
      gtts w k (text seg) "zh-cn" = Ok c /\ synthesizes w (S k) segs' clips'
  | _, _ => False
  end.

(** The effects of one successful iteration of the narration loop. *)
Definition segment_events (self : VideoGenerator) (seg : Segment)
    (c : AudioData) (t : Q) : list Event :=
  [ EvLog [Str "--- 处理音频片段: "; Str (name seg); Str " ---"];
    EvLog [Str "文本内容: "; Str (text seg)];
    EvTtsSave (text seg) "zh-cn" (voice_path self seg);
    EvAudioLoad (voice_path self seg);
    EvLog [Str "音频信息:"];
    EvLog [Str "- 文件: "; Str (voice_path self seg)];
    EvLog [Str "- 实际时长: "; Fix3 (ad_duration c); Str "秒"];
    EvLog [Str "- 开始时间: "; Fix3 t; Str "秒"] ].

(** The effects of the successful iterations for [segs]. *)
Fixpoint timeline_events (self : VideoGenerator) (segs : list Segment)
    (clips : list AudioData) (t : Q) : list Event :=
  match segs, clips with
  | seg :: segs', c :: clips' =>
      segment_events self seg c t
        ++ timeline_events self segs' clips' (t + ad_duration c)
  | _, _ => []
  end.

(** The files on disk after the successful iterations for [segs]. *)
Fixpoint timeline_files (self : VideoGenerator) (segs : list Segment)
    (clips : list AudioData) (fs : string -> option File) : string -> option File :=
  match segs, clips with
  | seg :: segs', c :: clips' =>
      timeline_files self segs' clips' (write_file (voice_path self seg) (FAudio c) fs)
  | _, _ => fs
  end.

Definition is_tts_event (e : Event) : bool :=
  match e with EvTtsSave _ _ _ => true | _ => false end.

(** The request the loop sends for a caption. *)
Definition tts_request (self : VideoGenerator) (seg : Segment) : Event :=
  EvTtsSave (text seg) "zh-cn" (voice_path self seg).

(** The factor [resize_and_pad_video] scales a clip by. *)
Definition cover_ratio (self : VideoGenerator) (clip : VideoClip) : Q :=
  py_max2
    (binary64 (inject_Z (fst (video_size self)) / inject_Z (fst (v_size clip))))
    (binary64 (inject_Z (snd (video_size self)) / inject_Z (snd (v_size clip)))).

(** A picture that [create_image_video] can turn into a clip: the file
    holds an image whose mode JPEG can store. *)
Definition loadable (fs : string -> option File) (p : string) : Prop :=
  exists i, fs p = Some (FImage i) /\ jpeg_writable (im_mode i) = true.

(** [f"image_{i}"]. *)
Definition image_name (i : nat) : string := ("image_" ++ str_of_nat i)%string.

(** The clip [create_image_video] returns for the picture number [i] held
    for [duration]. *)
Definition image_clip_of (self : VideoGenerator) (i : nat) (duration : Q)
  : VideoClip :=
  mkVideoClip (FromImageFile (temp_image_path self (image_name i)))
    (video_size self) 0 (Some duration) (Some (0 + duration)) (Some 24) None
    (fun _ => Ok (snd (video_size self), fst (video_size self))).

(** The effects of one iteration of the picture loop. *)
Definition image_events (self : VideoGenerator) (i : nat) (p : string)
    (duration : Q) : list Event :=
  [ EvLog [Str "处理第 "; Str (str_of_nat i); Str " 张图片..."];
    EvLog [Str "=== 处理图片视频: "; Str (image_name i); Str " ==="];
    EvImageOpen p;
    EvImageSave (temp_image_path self (image_name i));
    EvImageLoad (temp_image_path self (image_name i));
    EvLog [Str "图片视频信息:"];
    EvLog [Str "- 尺寸: "; Size (video_size self)];
    EvLog [Str "- 持续时间: "; Fix3 duration; Str "秒"] ].

(** Pictures and narration entries taken in pairs, from picture number [i]
    on, as long as both last: the visual tracks, and the effects of
    building them. *)
Fixpoint paired_tracks (self : VideoGenerator) (image_paths : list string)
    (rest : list AudioSegment) (i : nat) : list VideoClip :=
  match image_paths, rest with
  | _ :: paths', (_, start_time, duration) :: rest' =>
      v_set_start (image_clip_of self i duration) start_time
        :: paired_tracks self paths' rest' (S i)
  | _, _ => []
  end.

Fixpoint paired_events (self : VideoGenerator) (image_paths : list string)
    (rest : list AudioSegment) (i : nat) : list Event :=
  match image_paths, rest with
  | p :: paths', (_, _, duration) :: rest' =>
      image_events self i p duration ++ paired_events self paths' rest' (S i)
  | _, _ => []
  end.

(** The files on disk after the picture loop. *)
Fixpoint paired_files (self : VideoGenerator) (image_paths : list string)
    (rest : list AudioSegment) (i : nat) (fs : string -> option File)
  : string -> option File :=
  match image_paths, rest with
  | p :: paths', _ :: rest' =>
      match fs p with
      | Some (FImage img) =>
          paired_files self paths' rest' (S i)
            (write_file (temp_image_path self (image_name i))
               (FImage (mkImageData (video_size self) (im_mode img))) fs)
      | _ => fs
      end
  | _, _ => fs
  end.

Definition is_image_open (e : Event) : bool :=
  match e with EvImageOpen _ => true | _ => false end.



(** The composites handed to the encoder during a run. *)
Definition written_composites (tr : list Event) : list CompositeVideo :=
  flat_map (fun e => match e with
                     | EvWriteVideofile (MComposite v) _ _ => [v]
                     | _ => []
                     end) tr.

Definition is_write_event (e : Event) : bool :=
  match e with EvWriteVideofile _ _ _ => true | _ => false end.

Definition is_listdir_event (e : Event) : bool :=
  match e with EvListDir _ => true | _ => false end.

(** The effects of [create_video] up to the listing of the video folder. *)
Definition opening_events (self : VideoGenerator) (clips : list AudioData)
    (video_folder : string) : list Event :=
  [ EvLog [Str "========== 开始生成视频 =========="];
    EvLog [Str "--- 第1步：生成音频片段 ---"];
    EvLog [Str "========== 开始生成音频片段 =========="] ]
  ++ timeline_events self (segments self) clips 0
  ++ [ EvLog [Str "--- 第2步：处理视频片段 ---"];
       EvListDir video_folder ].

(** The paths a run writes to besides the final video: the narration
    files, the debug cut of the intro, the resized pictures. *)
Definition intermediate_output (self : VideoGenerator) (q : string) : Prop :=
  In q (map (voice_path self) (segments self))
  \/ q = debug_video_path self "intro"
  \/ exists k, q = temp_image_path self (image_name k).




(** A computation that hands no composite video to the encoder: whatever
    its outcome, it only appends effects to the trace, and none of them is
    the encoding of a composite. *)
Definition quiet {A} (m : M A) : Prop :=
  forall st r st',
    m st = (r, st') ->
    exists evs, trace st' = trace st ++ evs /\ written_composites evs = [].

(** A computation whose successful runs end by encoding one composite
    video at [output_path self], and return that path. *)
Definition exports (w : World) (self : VideoGenerator) (m : M string) : Prop :=
  forall st p st',
    m st = (Ok p, st') ->
    p = output_path self /\
    exists final_video evs,
      trace st' = trace st ++ evs ++
        [ EvWriteVideofile (MComposite final_video) (output_path self)
            (final_params self);
          EvLog [Str "处理完成!"] ] /\
      written_composites evs = [] /\
      encoder w (output_path self) = Ok tt /\
      files st' (output_path self)
      = Some (FVideo (encoded (MComposite final_video) (final_params self))).

(** The effects of [process_bgm] up to the comparison of the durations. *)
Definition bgm_prologue (bgm_path : string) (original total : Q) : list Event :=
  [ EvLog [Str "=== 处理背景音乐 ==="];
    EvLog [Str "BGM文件: "; Str bgm_path];
    EvAudioLoad bgm_path;
    EvLog [Str "原始BGM时长: "; Fix3 original; Str "秒"];
    EvLog [Str "需要的时长: "; Fix3 total; Str "秒"] ].

(** The background as [process_bgm] returns it for a required duration
    [total]: cut to [total], at 0.3 of the amplitude of the file. *)
Definition attenuated_background (bgm_path : string) (d : AudioData) (total : Q)
  : AudioClip :=
  mkAudioClip (Some bgm_path) 0 (total - 0) (0 + (total - 0))
    (fun t => (3 # 10) * ad_signal d (t + 0)).

(* ================================================================= *)
(** ** What a computation leaves alone *)

(** Every run of [m] takes a state to one related to it by [R]. *)
Definition preserves (R : State -> State -> Prop) {A} (m : M A) : Prop :=
  forall st r st', m st = (r, st') -> R st st'.

(** The trace only grows, by effects that all pass the test [ok]. *)
Definition emitting (ok : Event -> bool) (st st' : State) : Prop :=
  exists evs, trace st' = trace st ++ evs /\ forallb ok evs = true.

(** The files outside [P] are left as they were. *)
Definition keeping (P : string -> Prop) (st st' : State) : Prop :=
  forall q, ~ P q -> files st' q = files st q.

(** A computation whose failing runs relate the states by [R]. *)
Definition fails_within (R : State -> State -> Prop) {A} (m : M A) : Prop :=
  forall st e st', m st = (Raise e, st') -> R st st'.

(** The kinds of effects of the four stages of a run. *)
Definition narration_event (e : Event) : bool :=
  match e with
  | EvLog _ | EvTtsSave _ _ _ | EvAudioLoad _ => true
  | _ => false
  end.

Definition intro_event (e : Event) : bool :=
  match e with
  | EvLog _ | EvVideoLoad _ | EvWriteVideofile (MClip _) _ _ => true
  | _ => false
  end.

Definition picture_event (e : Event) : bool :=
  match e with
  | EvLog _ | EvImageOpen _ | EvImageSave _ | EvImageLoad _ => true
  | _ => false
  end.

Definition mix_event (e : Event) : bool :=
  match e with
  | EvLog _ | EvPathExists _ | EvAudioLoad _ => true
  | _ => false
  end.

Definition any_event (e : Event) : bool := true.


(** The video file [create_video] picks in a folder: the first name of the
    listing that ends in [.mp4] or [.MP4]. *)
Definition chosen_video (w : World) (video_folder : string) : option string :=
  match listdir w video_folder with
  | Ok names =>
      match filter is_video_name names with
      | video_file :: _ => Some (os_path_join video_folder video_file)
      | [] => None
      end
  | Raise _ => None
  end.

(** The reads a run of [create_video] may make of what it did not write
    itself: the listing of the folder, the chosen video, the pictures of
    the list, the narration files and the background it was given. *)
Definition reads_only (w : World) (self : VideoGenerator)
    (video_folder : string) (image_paths : list string)
    (bgm_path : option string) (e : Event) : bool :=
  let is_bgm p :=
    match bgm_path with Some q => String.eqb p q | None => false end in
  match e with
  | EvListDir p => String.eqb p video_folder
  | EvVideoLoad p =>
      match chosen_video w video_folder with
      | Some q => String.eqb p q
      | None => false
      end
  | EvImageOpen p => existsb (String.eqb p) image_paths
  | EvAudioLoad p =>
      existsb (fun seg => String.eqb p (voice_path self seg)) (segments self)
      || is_bgm p
  | EvPathExists p => is_bgm p
  | _ => true
  end.

(** A path that starts at the root. *)
Definition is_absolute (p : string) : bool :=
  match p with
  | String "/"%char _ => true
  | _ => false
  end.

(** The effects of [process_bgm] alone. *)
Definition bgm_event (e : Event) : bool :=
  match e with
  | EvLog _ | EvAudioLoad _ => true
  | _ => false
  end.

(* ================================================================= *)
(** ** Sample runs *)

(** The durations of the seven-caption scenario. *)
Definition demo_durations : list Q :=
  [3; 5 # 2; 16 # 5; 14 # 5; 3; 29 # 10; 31 # 10].

Definition demo_clip (d : Q) : AudioData := mkAudioData d (fun _ => 1).

(** A provider that answers call [k] with a clip of the [k]-th duration. *)
Definition demo_gtts (k : nat) (text lang : string) : result AudioData :=
  match nth_error demo_durations k with
  | Some d => Ok (demo_clip d)
  | None => Raise (mkExc "gTTSError" "too many requests")
  end.

(** A provider whose third call fails. *)
Definition flaky_gtts (k : nat) (text lang : string) : result AudioData :=
  if Nat.eqb k 2 then Raise (mkExc "gTTSError" "Failed to connect")
  else demo_gtts k text lang.

Definition demo_listdir (folder : string) : result (list string) :=
  if String.eqb folder "./input" then Ok ["notes.txt"; "clip.mp4"]
  else if String.eqb folder "./wide" then Ok ["clip.mp4"]
  else if String.eqb folder "./empty" then Ok ["notes.txt"]
  else Raise (mkExc "FileNotFoundError" folder).

Definition demo_encoder (path : string) : result unit := Ok tt.

Definition demo_world : World := mkWorld demo_gtts demo_listdir demo_encoder true.
Definition flaky_world : World := mkWorld flaky_gtts demo_listdir demo_encoder true.

Definition demo_self : VideoGenerator := VideoGenerator_init "/work" "20240101_120000".

(** The six pictures of [main]. *)
Definition demo_images : list string :=
  [ "./images/浴巾毛巾.jpg"; "./images/马克杯.jpg"; "./images/毛巾.jpg";
    "./images/带帽卫衣.jpg"; "./images/陶瓷杯具.jpg"; "./images/门帘.jpg" ].

(** A source video that already has the proportions of the canvas, and a
    landscape one. *)
Definition portrait_video : VideoData :=
  mkVideoData (1080, 1440)%Z 10 30 (Some (demo_clip 10)).
Definition landscape_video : VideoData :=
  mkVideoData (1920, 1080)%Z 10 30 None.

(** The files on disk before the run: a one-minute and a five-second piece
    of music, the source videos and the pictures. *)
Definition demo_files (p : string) : option File :=
  if String.eqb p "./input/clip.mp4" then Some (FVideo portrait_video)
  else if String.eqb p "./wide/clip.mp4" then Some (FVideo landscape_video)
  else if String.eqb p "bgm.mp3" then Some (FAudio (demo_clip 60))
  else if String.eqb p "short.mp3" then Some (FAudio (demo_clip 5))
  else if existsb (String.eqb p) demo_images
       then Some (FImage (mkImageData (800, 600)%Z ModeRGB))
  else None.

Definition demo_state : State := mkState demo_files 0 [].

(** The narration timeline of the scenario. *)
Definition demo_timeline : list AudioSegment :=
  timeline_from demo_self setup_segments (map demo_clip demo_durations) 0.

(** The landscape source as [VideoFileClip] loads it. *)
Definition landscape_clip : VideoClip :=
  clip_of_video_data "./wide/clip.mp4" landscape_video.

(** The portrait source as [VideoFileClip] loads it. *)
Definition portrait_clip : VideoClip :=
  clip_of_video_data "./input/clip.mp4" portrait_video.

(** A generator without captions. *)
Definition silent_self : VideoGenerator :=
  mkVideoGenerator "/work" (setup_directories "/work" "20240101_120000") []
    (1080, 1440)%Z "8000k".

(** A source video of 540 x 720, with the proportions of the canvas. *)
Definition small_portrait_clip : VideoClip :=
  clip_of_video_data "./small/clip.mp4" (mkVideoData (540, 720)%Z 8 25 None).

(** The files of the scenario plus a picture with an alpha channel. *)
Definition alpha_state : State :=
  mkState (write_file "./images/logo.png"
             (FImage (mkImageData (512, 512)%Z ModeRGBA)) demo_files) 0 [].

(** A source video of 1050 x 1400: the proportions of the canvas, at a
    size that the float ratio does not scale back exactly. *)
Definition rounded_clip : VideoClip :=
  clip_of_video_data "./odd/clip.mp4" (mkVideoData (1050, 1400)%Z 8 25 None).

(* ================================================================= *)
(** ** Proof automation *)

(** Unfolds the operations of the monad. *)
Ltac unfold_monad :=
  cbv beta iota zeta delta
    [bind ret raise lift log emit try_except try_finally].

(** Normal form of a state reached by a run: projections computed and the
    trace associated to the right. *)
Ltac norm_state :=
  repeat (progress
            (cbn [files tts_calls trace app
                  a_filename a_start a_duration a_end a_make_frame
                  clip_of_audio_data];
             rewrite <- ?app_assoc)).

Ltac unfold_monad_in H :=
  cbv beta iota zeta delta
    [bind ret raise lift log emit try_except try_finally] in H.
(* ================================================================= *)
(** * Properties *)

(** ** The monad *)

Lemma bind_ok {A B} (m : M A) (k : A -> M B) st a st' :
  m st = (Ok a, st') -> bind m k st = k a st'.
Proof. intros H. unfold bind. now rewrite H. Qed.

Lemma bind_raise {A B} (m : M A) (k : A -> M B) st e st' :
  m st = (Raise e, st') -> bind m k st = (Raise e, st').
Proof. intros H. unfold bind. now rewrite H. Qed.

Lemma try_except_ok {A} (m : M A) h st a st' :
  m st = (Ok a, st') -> try_except m h st = (Ok a, st').
Proof. intros H. unfold try_except. now rewrite H. Qed.

Lemma try_except_raise {A} (m : M A) h st e st' :
  m st = (Raise e, st') -> try_except m h st = h e st'.
Proof. intros H. unfold try_except. now rewrite H. Qed.

Lemma write_file_same p f fs : write_file p f fs p = Some f.
Proof. unfold write_file. now rewrite String.eqb_refl. Qed.

(** ** Narration: one iteration *)

Lemma generate_audio_segment_ok w self seg acc t st c :
  gtts w (tts_calls st) (text seg) "zh-cn" = Ok c ->
  generate_audio_segment w self seg acc t st =
    (Ok (acc ++ [(a_set_start (clip_of_audio_data (voice_path self seg) c) t,
                  t, ad_duration c)],
         t + ad_duration c),
     mkState (write_file (voice_path self seg) (FAudio c) (files st))
             (S (tts_calls st))
             (trace st ++ segment_events self seg c t)).
Proof.
  intros H.
  cbv beta iota zeta delta
    [generate_audio_segment bind log emit gTTS_save AudioFileClip ret].
  norm_state. rewrite H. norm_state. rewrite write_file_same.
  norm_state. reflexivity.
Qed.

Lemma generate_audio_segment_raise w self seg acc t st e :
  gtts w (tts_calls st) (text seg) "zh-cn" = Raise e ->
  try_except (generate_audio_segment w self seg acc t)
             (generate_audio_failed seg) st =
    (Raise e,
     mkState (files st) (S (tts_calls st))
       (trace st ++
          [ EvLog [Str "--- 处理音频片段: "; Str (name seg); Str " ---"];
            EvLog [Str "文本内容: "; Str (text seg)];
            tts_request self seg;
            EvLog [Str "错误: 生成音频失败 "; Str (name seg); Str ": ";
                   Str (exc_msg e)] ])).
Proof.
  intros H.
  cbv beta iota zeta delta
    [try_except generate_audio_failed generate_audio_segment bind log emit
     gTTS_save AudioFileClip ret raise tts_request].
  norm_state. rewrite H. norm_state. reflexivity.
Qed.

(** ** Narration: the loop *)

Lemma synthesizes_length w segs : forall k clips,
  synthesizes w k segs clips -> length clips = length segs.
Proof.
  induction segs as [|seg segs IH]; intros k [|c clips] H; cbn in H;
    try contradiction; [reflexivity|].
  destruct H as [_ H]. cbn. f_equal. eauto.
Qed.

Lemma generate_audio_loop_ok w self segs : forall clips acc t st,
  synthesizes w (tts_calls st) segs clips ->
  generate_audio_loop w self segs acc t st =
    (Ok (acc ++ timeline_from self segs clips t),
     mkState (timeline_files self segs clips (files st))
             (tts_calls st + length segs)
             (trace st ++ timeline_events self segs clips t)).
Proof.
  induction segs as [|seg segs IH]; intros [|c clips] acc t st H; cbn in H;
    try contradiction.
  - cbn. unfold ret. rewrite !app_nil_r, Nat.add_0_r. now destruct st.
  - destruct H as [Hc Hrest].
    cbn [generate_audio_loop].
    erewrite bind_ok
      by (apply try_except_ok; apply generate_audio_segment_ok; exact Hc).
    cbv beta iota.
    rewrite (IH clips) by exact Hrest.
    cbn [timeline_from timeline_files timeline_events length].
    norm_state. rewrite Nat.add_succ_r. reflexivity.
Qed.

Lemma generate_audio_loop_raise w self pre : forall seg post clips e acc t st,
  synthesizes w (tts_calls st) pre clips ->
  gtts w (tts_calls st + length pre) (text seg) "zh-cn" = Raise e ->
  exists fs,
    generate_audio_loop w self (pre ++ seg :: post) acc t st =
      (Raise e,
       mkState fs (tts_calls st + length pre + 1)
         (trace st ++ timeline_events self pre clips t ++
            [ EvLog [Str "--- 处理音频片段: "; Str (name seg); Str " ---"];
              EvLog [Str "文本内容: "; Str (text seg)];
              tts_request self seg;
              EvLog [Str "错误: 生成音频失败 "; Str (name seg); Str ": ";
                     Str (exc_msg e)] ])).
Proof.
  induction pre as [|p pre IH]; intros seg post [|c clips] e acc t st H He;
    cbn in H; try contradiction.
  - exists (files st).
    cbn [app generate_audio_loop length] in *. rewrite Nat.add_0_r in He.
    erewrite bind_raise
      by (apply generate_audio_segment_raise; exact He).
    cbn [timeline_events app]. now rewrite Nat.add_0_r, Nat.add_1_r.
  - destruct H as [Hc Hrest].
    cbn [app generate_audio_loop].
    erewrite bind_ok
      by (apply try_except_ok; apply generate_audio_segment_ok; exact Hc).
    cbv beta iota.
    edestruct (IH seg post clips e) as (fs & Hrun);
      [ | | exists fs; rewrite Hrun ].
    + cbn [tts_calls]. exact Hrest.
    + cbn [tts_calls length] in *. now rewrite Nat.add_succ_r in He.
    + cbn [timeline_events length]. norm_state.
      now rewrite !Nat.add_succ_r.
Qed.

(** ** Narration: the timeline as a function of the durations *)

Lemma timeline_from_length self segs : forall clips t,
  length clips = length segs ->
  length (timeline_from self segs clips t) = length segs.
Proof.
  induction segs as [|seg segs IH]; intros [|c clips] t H; cbn in *;
    try discriminate; [reflexivity|].
  f_equal. apply IH. congruence.
Qed.

Lemma timeline_from_nth self segs : forall clips t i seg c,
  nth_error segs i = Some seg ->
  nth_error clips i = Some c ->
  exists s,
    nth_error (timeline_from self segs clips t) i =
      Some (a_set_start (clip_of_audio_data (voice_path self seg) c) s,
            s, ad_duration c)
    /\ s == t + Qsum (map ad_duration (firstn i clips)).
Proof.
  induction segs as [|seg0 segs IH]; intros [|c0 clips] t [|i] seg c Hs Hc;
    cbn in Hs, Hc; try discriminate.
  - injection Hs as ->. injection Hc as ->.
    exists t. split; [reflexivity|]. cbn. ring.
  - destruct (IH clips (t + ad_duration c0) i seg c Hs Hc) as (s & Hn & Hq).
    exists s. split; [exact Hn|]. rewrite Hq. cbn. ring.
Qed.

Lemma py_max2_step (m t d : Q) :
  m == t -> 0 <= d -> py_max2 m (t + d) == t + d.
Proof.
  intros Hm Hd. unfold py_max2, Qlt_bool.
  destruct (Qle_bool (t + d) m) eqn:E; cbn; [|reflexivity].
  apply Qle_bool_iff in E. apply Qle_antisym; [|exact E].
  rewrite Hm. rewrite <- (Qplus_0_r t) at 1. apply Qplus_le_r. exact Hd.
Qed.

Lemma timeline_from_max self segs : forall clips t m,
  Forall (fun c => 0 <= ad_duration c) clips ->
  m == t ->
  fold_left py_max2
    (map a_end (map (fun x : AudioSegment => fst (fst x))
                  (timeline_from self segs clips t))) m
  == t + Qsum (map ad_duration (firstn (length segs) clips)).
Proof.
  induction segs as [|seg segs IH]; intros [|c clips] t m Hpos Hm;
    cbn [timeline_from map fold_left firstn length Qsum];
    try (rewrite Hm; ring).
  inversion Hpos as [|? ? Hc Hrest]; subst.
  rewrite (IH clips (t + ad_duration c)); [ring | exact Hrest |].
  cbn. apply py_max2_step; assumption.
Qed.

Lemma narration_mix_timeline self seg segs c clips :
  length clips = length segs ->
  Forall (fun x => 0 <= ad_duration x) (c :: clips) ->
  exists voice,
    narration_mix (timeline_from self (seg :: segs) (c :: clips) 0) = Ok voice /\
    a_duration voice == Qsum (map ad_duration (c :: clips)).
Proof.
  intros Hlen Hpos. unfold narration_mix, CompositeAudioClip.
  cbn [timeline_from map py_max].
  eexists. split; [reflexivity|]. cbn [a_duration].
  inversion Hpos as [|? ? Hc Hrest]; subst.
  rewrite (timeline_from_max self segs clips (0 + ad_duration c));
    [ | exact Hrest | reflexivity ].
  rewrite <- Hlen, firstn_all. cbn. ring.
Qed.

(** C1.  When the provider answers the captions of [self.segments], in
    order, with clips of durations d0 .. d(N-1), [generate_audio_segments]
    returns N triples in caption order: entry [i] holds the clip loaded
    from the file written for caption [i], its duration [di], and the start
    d0 + ... + d(i-1), which is also the start set on the clip; the nominal
    [start] and [target_duration] of the segments play no part.  The last
    entry ends at d0 + ... + d(N-1), and so does the narration mix built
    from the triples (that is the total duration of the timeline). *)
Theorem generate_audio_segments_cumulative_starts :
  forall (w : World) (self : VideoGenerator) (st : State) (clips : list AudioData),
    synthesizes w (tts_calls st) (segments self) clips ->
    Forall (fun c => 0 <= ad_duration c) clips ->
    exists tl st',
      generate_audio_segments w self st = (Ok tl, st') /\
      length tl = length (segments self) /\
      (forall i seg c,
          nth_error (segments self) i = Some seg ->
          nth_error clips i = Some c ->
          exists a s,
            nth_error tl i = Some (a, s, ad_duration c) /\
            a_filename a = Some (voice_path self seg) /\
            a_duration a = ad_duration c /\
            a_start a = s /\
            a_end a = s + ad_duration c /\
            s == Qsum (map ad_duration (firstn i clips)) /\
            s + ad_duration c == Qsum (map ad_duration (firstn (S i) clips))) /\
      (segments self <> [] ->
       exists voice,
         narration_mix tl = Ok voice /\
         a_duration voice == Qsum (map ad_duration clips)).
Proof.
  intros w self st clips Hsyn Hpos.
  pose proof (synthesizes_length _ _ _ _ Hsyn) as Hlen.
  unfold generate_audio_segments.
  erewrite bind_ok by reflexivity.
  rewrite (generate_audio_loop_ok w self (segments self) clips)
    by (cbn [tts_calls]; exact Hsyn).
  eexists _, _. split; [reflexivity|]. cbn [app].
  split; [now apply timeline_from_length|]. split.
  - intros i seg c Hs Hc.
    destruct (timeline_from_nth self (segments self) clips 0 i seg c Hs Hc)
      as (s & Hn & Hq).
    exists (a_set_start (clip_of_audio_data (voice_path self seg) c) s), s.
    repeat split; try reflexivity; try exact Hn.
    + rewrite Hq. ring.
    + rewrite Hq.
      assert (Hsplit : forall (l : list AudioData) k x,
                 nth_error l k = Some x ->
                 Qsum (map ad_duration (firstn (S k) l))
                 == Qsum (map ad_duration (firstn k l)) + ad_duration x).
      { induction l as [|y l IHl]; intros [|k] x Hx; cbn in Hx;
          try discriminate.
        - injection Hx as ->. cbn. ring.
        - cbn [firstn map Qsum]. rewrite (IHl k x Hx).
          cbn [firstn map Qsum]. ring. }
      rewrite (Hsplit clips i c Hc). ring.
  - intros Hne.
    destruct (segments self) as [|seg segs] eqn:Hsegs; [congruence|].
    destruct clips as [|c clips]; [discriminate|].
    cbn in Hlen. injection Hlen as Hlen.
    exact (narration_mix_timeline self seg segs c clips Hlen Hpos).
Qed.

Lemma timeline_events_requests self segs : forall clips t,
  length clips = length segs ->
  filter is_tts_event (timeline_events self segs clips t)
  = map (tts_request self) segs.
Proof.
  induction segs as [|seg segs IH]; intros [|c clips] t H; cbn in H;
    try discriminate; [reflexivity|].
  cbn [timeline_events segment_events app filter is_tts_event map].
  unfold tts_request at 1. f_equal. apply IH. congruence.
Qed.

(** C7.  When the provider answers the first captions and fails on the
    next one with an exception [e], [generate_audio_segments] raises that
    same [e] (so no timeline, not even a partial one, is returned): the
    provider was asked once for each caption up to the failing one, in
    order, and never again, and the last thing the function did was to log
    the name of the failing segment together with [str(e)]. *)
Theorem generate_audio_segments_fail_fast :
  forall (w : World) (self : VideoGenerator) (st : State)
         (pre post : list Segment) (seg : Segment)
         (clips : list AudioData) (e : Exception),
    segments self = pre ++ seg :: post ->
    synthesizes w (tts_calls st) pre clips ->
    gtts w (tts_calls st + length pre) (text seg) "zh-cn" = Raise e ->
    exists st' evs,
      generate_audio_segments w self st = (Raise e, st') /\
      trace st' = trace st ++ evs ++
        [EvLog [Str "错误: 生成音频失败 "; Str (name seg); Str ": ";
                Str (exc_msg e)]] /\
      filter is_tts_event evs = map (tts_request self) (pre ++ [seg]) /\
      (tts_calls st' = tts_calls st + length (pre ++ [seg]))%nat.
Proof.
  intros w self st pre post seg clips e Hsegs Hsyn He.
  unfold generate_audio_segments.
  erewrite bind_ok by reflexivity. rewrite Hsegs.
  edestruct (generate_audio_loop_raise w self pre seg post clips e [] 0)
    as (fs & Hrun); [ | | rewrite Hrun ].
  - cbn [tts_calls]. exact Hsyn.
  - cbn [tts_calls]. exact He.
  - eexists _,
      (EvLog [Str "========== 开始生成音频片段 =========="]
         :: timeline_events self pre clips 0
         ++ [ EvLog [Str "--- 处理音频片段: "; Str (name seg); Str " ---"];
              EvLog [Str "文本内容: "; Str (text seg)];
              tts_request self seg ]).
    split; [reflexivity|]. cbn [trace tts_calls]. split.
    + cbn [app]. rewrite <- !app_assoc. reflexivity.
    + split.
      * cbn [filter is_tts_event]. rewrite filter_app, map_app.
        rewrite timeline_events_requests
          by (eapply synthesizes_length; eassumption).
        reflexivity.
      * rewrite length_app. cbn. lia.
Qed.

(** ** Comparisons on rationals *)

Lemma Qlt_bool_true (a b : Q) : Qlt_bool a b = true <-> a < b.
Proof.
  unfold Qlt_bool. rewrite negb_true_iff. split; intros H.
  - apply Qnot_le_lt. intros Hle. apply Qle_bool_iff in Hle. congruence.
  - destruct (Qle_bool b a) eqn:E; [|reflexivity].
    apply Qle_bool_iff in E. exfalso. exact (Qlt_not_le _ _ H E).
Qed.

Lemma Qlt_bool_false (a b : Q) : Qlt_bool a b = false <-> b <= a.
Proof.
  unfold Qlt_bool. rewrite negb_false_iff. apply Qle_bool_iff.
Qed.

(** ** [process_bgm] *)

(** The module binds [concatenate_videoclips], not
    [concatenate_audioclips]. *)
Lemma load_global_concatenate_audioclips :
  load_global "concatenate_audioclips"
  = Raise (mkExc "NameError" "name 'concatenate_audioclips' is not defined").
Proof. vm_compute. reflexivity. Qed.

Lemma process_bgm_short self bgm_path total st d :
  files st bgm_path = Some (FAudio d) ->
  ad_duration d < total ->
  ~ ad_duration d == 0 ->
  process_bgm self bgm_path total st =
    (Raise (mkExc "NameError" "name 'concatenate_audioclips' is not defined"),
     mkState (files st) (tts_calls st)
       (trace st ++ bgm_prologue bgm_path (ad_duration d) total ++
          [ EvLog [Str "BGM较短，进行循环处理..."];
            EvLog [Str "错误: 处理BGM失败: ";
                   Str "name 'concatenate_audioclips' is not defined"] ])).
Proof.
  intros Hf Hlt Hnz.
  unfold process_bgm, AudioFileClip, ceil_ratio. unfold_monad. norm_state.
  rewrite Hf. norm_state.
  apply Qlt_bool_true in Hlt. rewrite Hlt. norm_state.
  destruct (Qeq_bool (ad_duration d) 0) eqn:E.
  - apply Qeq_bool_iff in E. contradiction.
  - rewrite load_global_concatenate_audioclips.
    unfold bgm_prologue. norm_state. reflexivity.
Qed.

Lemma process_bgm_zero self bgm_path total st d :
  files st bgm_path = Some (FAudio d) ->
  ad_duration d < total ->
  ad_duration d == 0 ->
  exists st',
    process_bgm self bgm_path total st =
      (Raise (mkExc "ZeroDivisionError" "float division by zero"), st').
Proof.
  intros Hf Hlt Hz.
  unfold process_bgm, AudioFileClip, ceil_ratio. unfold_monad. norm_state.
  rewrite Hf. norm_state.
  apply Qlt_bool_true in Hlt. rewrite Hlt. norm_state.
  apply Qeq_bool_iff in Hz. rewrite Hz. eexists. reflexivity.
Qed.

Lemma process_bgm_long self bgm_path total st d :
  files st bgm_path = Some (FAudio d) ->
  total <= ad_duration d ->
  0 <= total ->
  process_bgm self bgm_path total st =
    (Ok (mkAudioClip (Some bgm_path) 0 (total - 0) (0 + (total - 0))
           (fun t => (3 # 10) * ad_signal d (t + 0))),
     mkState (files st) (tts_calls st)
       (trace st ++ bgm_prologue bgm_path (ad_duration d) total ++
          [ EvLog [Str "BGM处理完成，最终时长: "; Fix3 (total - 0); Str "秒"] ])).
Proof.
  intros Hf Hle Hpos.
  unfold process_bgm, AudioFileClip. unfold_monad. norm_state.
  rewrite Hf. norm_state.
  apply Qlt_bool_false in Hle. rewrite Hle. norm_state.
  unfold a_subclip. norm_state.
  assert (H00 : Qlt_bool 0 0 = false) by reflexivity. rewrite H00.
  assert (Hd0 : Qlt_bool (ad_duration d) 0 = false).
  { apply Qlt_bool_false. apply Qlt_bool_false in Hle.
    eapply Qle_trans; eassumption. }
  rewrite Hd0.
  assert (Ht0 : Qlt_bool total 0 = false) by (now apply Qlt_bool_false).
  rewrite Ht0. unfold bgm_prologue, a_volumex. norm_state. reflexivity.
Qed.

(** C2.  For a background file of duration Do and a required duration Dr
    with Do < Dr, [process_bgm] never returns a track: it reaches the call
    of [concatenate_audioclips], a name the module does not import, and
    leaves with the [NameError] (with a [ZeroDivisionError] when Do is 0). *)
Theorem process_bgm_short_background_raises :
  forall (self : VideoGenerator) (bgm_path : string) (total_duration : Q)
         (st : State) (d : AudioData),
    files st bgm_path = Some (FAudio d) ->
    ad_duration d < total_duration ->
    exists e st',
      process_bgm self bgm_path total_duration st = (Raise e, st') /\
      (~ ad_duration d == 0 ->
       e = mkExc "NameError" "name 'concatenate_audioclips' is not defined").
Proof.
  intros self bgm_path total st d Hf Hlt.
  destruct (Qeq_dec (ad_duration d) 0) as [Hz|Hnz].
  - destruct (process_bgm_zero self bgm_path total st d Hf Hlt Hz) as (st' & H).
    eexists _, st'. split; [exact H|]. intros Hn. contradiction.
  - pose proof (process_bgm_short self bgm_path total st d Hf Hlt Hnz) as H.
    eexists _, _. split; [exact H|]. reflexivity.
Qed.

(** The scenario of the specification: a background of 5 s for a narration
    of 20.5 s. *)
Lemma process_bgm_short_background_raises_witness :
  exists e st',
    process_bgm demo_self "short.mp3" (41 # 2) demo_state = (Raise e, st') /\
    (~ ad_duration (demo_clip 5) == 0 ->
     e = mkExc "NameError" "name 'concatenate_audioclips' is not defined").
Proof.
  apply (process_bgm_short_background_raises demo_self "short.mp3" (41 # 2)
           demo_state (demo_clip 5)).
  - reflexivity.
  - reflexivity.
Defined.

(** ** Step 4 of [create_video]: the final mix *)

Lemma narration_mix_shape segs voice :
  narration_mix segs = Ok voice ->
  a_start voice = 0 /\ a_end voice = a_duration voice.
Proof.
  unfold narration_mix, CompositeAudioClip.
  destruct (py_max _); [|discriminate].
  intros H. injection H as <-. split; reflexivity.
Qed.

Lemma create_video_audio_without self segs bgm_path st voice :
  narration_mix segs = Ok voice ->
  truthy bgm_path = false ->
  create_video_audio self segs bgm_path st =
    (Ok voice,
     mkState (files st) (tts_calls st)
       (trace st ++
          [ EvLog [Str "配音总时长: "; Fix3 (a_duration voice); Str "秒"];
            EvLog [Str "未找到BGM文件，仅使用配音"] ])).
Proof.
  intros Hv Ht. unfold create_video_audio. unfold_monad. rewrite Hv.
  destruct bgm_path as [p|]; [rewrite Ht|]; norm_state; reflexivity.
Qed.

Lemma create_video_audio_missing self segs p st voice :
  narration_mix segs = Ok voice ->
  truthy (Some p) = true ->
  files st p = None ->
  create_video_audio self segs (Some p) st =
    (Ok voice,
     mkState (files st) (tts_calls st)
       (trace st ++
          [ EvLog [Str "配音总时长: "; Fix3 (a_duration voice); Str "秒"];
            EvPathExists p;
            EvLog [Str "未找到BGM文件，仅使用配音"] ])).
Proof.
  intros Hv Ht Hf. unfold create_video_audio, os_path_exists. unfold_monad.
  rewrite Hv, Ht. norm_state. rewrite Hf. norm_state. reflexivity.
Qed.

Lemma create_video_audio_long self segs p st voice d :
  narration_mix segs = Ok voice ->
  truthy (Some p) = true ->
  files st p = Some (FAudio d) ->
  a_duration voice <= ad_duration d ->
  0 <= a_duration voice ->
  exists mix,
    CompositeAudioClip
      [a_volumex voice 1; attenuated_background p d (a_duration voice)] = Ok mix /\
    create_video_audio self segs (Some p) st =
      (Ok mix,
       mkState (files st) (tts_calls st)
         (trace st ++
            [ EvLog [Str "配音总时长: "; Fix3 (a_duration voice); Str "秒"];
              EvPathExists p ] ++
            bgm_prologue p (ad_duration d) (a_duration voice) ++
            [ EvLog [Str "BGM处理完成，最终时长: "; Fix3 (a_duration voice - 0);
                     Str "秒"];
              EvLog [Str "已添加BGM"] ])).
Proof.
  intros Hv Ht Hf Hle Hpos.
  eexists. split; [reflexivity|].
  unfold create_video_audio, os_path_exists. unfold_monad.
  rewrite Hv, Ht. norm_state. rewrite Hf. norm_state.
  rewrite (process_bgm_long self p (a_duration voice) _ d); norm_state;
    try assumption.
  unfold attenuated_background. reflexivity.
Qed.

Lemma create_video_audio_short self segs p st voice d :
  narration_mix segs = Ok voice ->
  truthy (Some p) = true ->
  files st p = Some (FAudio d) ->
  ad_duration d < a_duration voice ->
  ~ ad_duration d == 0 ->
  exists st',
    create_video_audio self segs (Some p) st =
      (Raise (mkExc "NameError" "name 'concatenate_audioclips' is not defined"), st').
Proof.
  intros Hv Ht Hf Hlt Hnz.
  unfold create_video_audio, os_path_exists. unfold_monad.
  rewrite Hv, Ht. norm_state. rewrite Hf. norm_state.
  rewrite (process_bgm_short self p (a_duration voice) _ d); norm_state;
    try assumption.
  eexists. reflexivity.
Qed.

(** The mix of the narration with a background cut to its length: it
    starts at 0, lasts as long as the narration and, while the narration
    lasts, plays the narration as it is plus 0.3 of the background. *)
Lemma mix_with_background voice p d mix :
  a_start voice = 0 ->
  a_end voice = a_duration voice ->
  CompositeAudioClip
    [a_volumex voice 1; attenuated_background p d (a_duration voice)] = Ok mix ->
  a_start mix = 0 /\
  a_duration mix == a_duration voice /\
  forall t, 0 <= t -> t < a_duration voice ->
    a_make_frame mix t
    == 1 * a_make_frame voice (t - 0) + (3 # 10) * ad_signal d (t - 0 + 0).
Proof.
  intros Hs He H. unfold CompositeAudioClip in H. cbn [map py_max] in H.
  injection H as <-. cbn [a_start a_duration a_make_frame].
  split; [reflexivity|]. split.
  - cbn [fold_left a_volumex attenuated_background a_end]. rewrite He.
    unfold py_max2. destruct (Qlt_bool _ _); ring.
  - intros t H0 Ht.
    assert (P1 : a_is_playing (a_volumex voice 1) t = true).
    { unfold a_is_playing, a_volumex. cbn [a_start a_end].
      rewrite Hs, He. apply andb_true_intro. split.
      - now apply Qle_bool_iff.
      - now apply Qlt_bool_true. }
    assert (P2 : a_is_playing
                   (attenuated_background p d (a_duration voice)) t = true).
    { unfold a_is_playing, attenuated_background. cbn [a_start a_end].
      apply andb_true_intro. split.
      - now apply Qle_bool_iff.
      - apply Qlt_bool_true. eapply Qlt_le_trans; [exact Ht|].
        apply Qle_lteq. right. ring. }
    cbn [filter]. rewrite P1, P2. cbn [map Qsum].
    unfold a_volumex, attenuated_background. cbn [a_make_frame a_start].
    rewrite Hs. ring.
Qed.

(** C4.  What step 4 of [create_video] yields for a narration mix [voice].
    Without a background path (or with an empty one), and with a path that
    does not exist, the final mix is [voice] itself.  With a background
    file at least as long as the narration, the final mix starts at 0,
    lasts as long as the narration, and plays the narration at factor 1.0
    plus the background at factor 0.3.  With a background file shorter than
    the narration no mix is produced: [process_bgm] raises the [NameError]
    of [concatenate_audioclips]. *)
Theorem create_video_audio_final_mix :
  forall (self : VideoGenerator) (segs : list AudioSegment)
         (bgm_path : option string) (st : State) (voice : AudioClip),
    narration_mix segs = Ok voice ->
    0 <= a_duration voice ->
    (truthy bgm_path = false \/ (exists p, bgm_path = Some p /\ files st p = None) ->
     exists st', create_video_audio self segs bgm_path st = (Ok voice, st')) /\
    (forall p d,
        bgm_path = Some p -> truthy bgm_path = true ->
        files st p = Some (FAudio d) ->
        (a_duration voice <= ad_duration d ->
         exists mix st',
           create_video_audio self segs bgm_path st = (Ok mix, st') /\
           a_start mix = 0 /\
           a_duration mix == a_duration voice /\
           forall t, 0 <= t -> t < a_duration voice ->
             a_make_frame mix t
             == 1 * a_make_frame voice (t - 0)
                + (3 # 10) * ad_signal d (t - 0 + 0)) /\
        (ad_duration d < a_duration voice -> ~ ad_duration d == 0 ->
         exists st',
           create_video_audio self segs bgm_path st =
             (Raise (mkExc "NameError"
                       "name 'concatenate_audioclips' is not defined"), st'))).
Proof.
  intros self segs bgm_path st voice Hv Hpos.
  destruct (narration_mix_shape _ _ Hv) as [Hs He]. split.
  - intros [Ht | (p & -> & Hf)].
    + eexists. now apply create_video_audio_without.
    + destruct (truthy (Some p)) eqn:Ht.
      * eexists. now apply create_video_audio_missing.
      * eexists. now apply create_video_audio_without.
  - intros p d -> Ht Hf. split.
    + intros Hle.
      destruct (create_video_audio_long self segs p st voice d Hv Ht Hf Hle Hpos)
        as (mix & Hmix & Hrun).
      exists mix. eexists. split; [exact Hrun|].
      exact (mix_with_background voice p d mix Hs He Hmix).
    + intros Hlt Hnz.
      exact (create_video_audio_short self segs p st voice d Hv Ht Hf Hlt Hnz).
Qed.

(** The narration of 20.5 s with a background of 5 s, and with one of a
    minute. *)
Lemma create_video_audio_final_mix_witness :
  exists voice,
    narration_mix demo_timeline = Ok voice /\
    (exists st',
        create_video_audio demo_self demo_timeline (Some "short.mp3") demo_state =
          (Raise (mkExc "NameError"
                    "name 'concatenate_audioclips' is not defined"), st')) /\
    (exists mix st',
        create_video_audio demo_self demo_timeline (Some "bgm.mp3") demo_state =
          (Ok mix, st') /\
        a_start mix = 0 /\
        a_duration mix == a_duration voice).
Proof.
  eexists. split; [reflexivity|]. split.
  - refine (proj2 (proj2 (create_video_audio_final_mix demo_self demo_timeline
                     (Some "short.mp3") demo_state _ eq_refl _)
                   "short.mp3" (demo_clip 5) eq_refl eq_refl eq_refl) _ _).
    + vm_compute. discriminate.
    + vm_compute. reflexivity.
    + vm_compute. discriminate.
  - destruct (proj1 (proj2 (create_video_audio_final_mix demo_self demo_timeline
                       (Some "bgm.mp3") demo_state _ eq_refl
                       ltac:(vm_compute; discriminate))
                     "bgm.mp3" (demo_clip 60) eq_refl eq_refl eq_refl)
                ltac:(vm_compute; discriminate))
      as (mix & st' & Hrun & Hs & Hd & _).
    exists mix, st'. repeat split; assumption.
Defined.

(** ** [resize_and_pad_video] *)

Lemma py_max2_ge_l (a b : Q) : a <= py_max2 a b.
Proof.
  unfold py_max2. destruct (Qlt_bool a b) eqn:E.
  - apply Qlt_bool_true in E. now apply Qlt_le_weak.
  - apply Qle_refl.
Qed.

Lemma py_max2_ge_r (a b : Q) : b <= py_max2 a b.
Proof.
  unfold py_max2. destruct (Qlt_bool a b) eqn:E.
  - apply Qle_refl.
  - now apply Qlt_bool_false in E.
Qed.

Lemma slice_bound_range (n i : Z) :
  (0 <= n)%Z -> (0 <= slice_bound n i <= n)%Z.
Proof.
  intros Hn. unfold slice_bound.
  destruct (Z.ltb_spec i 0).
  - destruct (Z.ltb_spec (i + n) 0); [lia|].
    destruct (Z.ltb_spec n (i + n)); lia.
  - destruct (Z.ltb_spec i 0); [lia|].
    destruct (Z.ltb_spec n i); lia.
Qed.

Lemma slice_length_le (n a b : Z) : (0 <= n)%Z -> (slice_length n a b <= n)%Z.
Proof.
  intros Hn. unfold slice_length.
  pose proof (slice_bound_range n a Hn). pose proof (slice_bound_range n b Hn).
  lia.
Qed.

(** A value larger than the axis fits no slice of it. *)
Lemma broadcastable_too_large (v n a b : Z) :
  (0 < n)%Z -> (n < v)%Z -> broadcastable v (slice_length n a b) = false.
Proof.
  intros Hn Hv. unfold broadcastable.
  pose proof (slice_length_le n a b ltac:(lia)).
  apply orb_false_intro; apply Z.eqb_neq; lia.
Qed.

(** [make_frame] cannot store a frame that exceeds the canvas. *)
Lemma make_frame_too_large scaled_clip W H t rows cols :
  (0 < W)%Z -> (0 < H)%Z ->
  v_get_frame scaled_clip t = Ok (rows, cols) ->
  (H < rows)%Z \/ (W < cols)%Z ->
  make_frame scaled_clip W H t =
    Raise (mkExc "ValueError" "could not broadcast input array into shape").
Proof.
  intros HW HH Hf Hbig. unfold make_frame, np_store, np_zeros. rewrite Hf.
  cbn [fst snd].
  destruct Hbig as [Hr | Hc].
  - rewrite broadcastable_too_large by assumption. reflexivity.
  - rewrite (broadcastable_too_large cols W) by assumption.
    rewrite andb_false_r. reflexivity.
Qed.

Lemma size_eqb_eq (a b : Z * Z) : size_eqb a b = true <-> a = b.
Proof.
  destruct a as [a1 a2], b as [b1 b2]. unfold size_eqb. cbn [fst snd].
  rewrite andb_true_iff, !Z.eqb_eq. split.
  - intros [-> ->]. reflexivity.
  - intros H. injection H as -> ->. split; reflexivity.
Qed.

(** The two ways out of [resize_and_pad_video]. *)
Lemma resize_and_pad_video_same self clip st :
  fst (v_size clip) <> 0%Z -> snd (v_size clip) <> 0%Z ->
  size_eqb (v_size (v_resize clip (cover_ratio self clip))) (video_size self) = true ->
  resize_and_pad_video self clip st =
    (Ok (v_resize clip (cover_ratio self clip)),
     mkState (files st) (tts_calls st)
       (trace st ++
          [ EvLog [Str "调整视频尺寸:"];
            EvLog [Str "原始尺寸: "; Size (v_size clip)];
            EvLog [Str "缩放后尺寸: ";
                   Size (v_size (v_resize clip (cover_ratio self clip)))] ])).
Proof.
  intros Hw Hh Heq. unfold resize_and_pad_video, py_truediv.
  unfold cover_ratio in *.
  destruct (video_size self) as [W H]. cbn [fst snd] in *.
  unfold_monad. norm_state.
  apply Z.eqb_neq in Hw, Hh. rewrite Hw, Hh. norm_state.
  rewrite Heq. cbn [negb]. reflexivity.
Qed.

Lemma resize_and_pad_video_pads self clip st :
  fst (v_size clip) <> 0%Z -> snd (v_size clip) <> 0%Z ->
  size_eqb (v_size (v_resize clip (cover_ratio self clip))) (video_size self) = false ->
  resize_and_pad_video self clip st =
    (Raise (mkExc "TypeError"
              "__init__() got an unexpected keyword argument 'make_frame'"),
     mkState (files st) (tts_calls st)
       (trace st ++
          [ EvLog [Str "调整视频尺寸:"];
            EvLog [Str "原始尺寸: "; Size (v_size clip)];
            EvLog [Str "缩放后尺寸: ";
                   Size (v_size (v_resize clip (cover_ratio self clip)))];
            EvLog [Str "添加黑色填充以匹配目标尺寸"] ])).
Proof.
  intros Hw Hh Hne. unfold resize_and_pad_video, py_truediv.
  unfold cover_ratio in *.
  destruct (video_size self) as [W H]. cbn [fst snd] in *.
  unfold_monad. norm_state.
  apply Z.eqb_neq in Hw, Hh. rewrite Hw, Hh. norm_state.
  rewrite Hne. cbn [negb]. unfold VideoFileClip_make_frame. norm_state.
  reflexivity.
Qed.

(** On every source extent from 1 to 4000, the quotients and products of
    [resize_and_pad_video] for the canvas of 1080 x 1440 are those of the
    doubles of the machine. *)
Lemma binary64_agrees_with_doubles :
  forallb (fun w => doubles_agree 1080 (Z.of_nat w)
                    && doubles_agree 1440 (Z.of_nat w)) (seq 1 4000) = true.
Proof. vm_compute. reflexivity. Qed.

(** A frame that fits the canvas is stored at the centring offsets: the
    result has the shape of the canvas. *)
Lemma make_frame_fits scaled_clip W H t rows cols :
  v_get_frame scaled_clip t = Ok (rows, cols) ->
  (0 <= rows <= H)%Z -> (0 <= cols <= W)%Z ->
  make_frame scaled_clip W H t = Ok (H, W).
Proof.
  intros Hf Hr Hc. unfold make_frame, np_store, np_zeros. rewrite Hf.
  cbn [fst snd].
  assert (Hfit : forall n v, (0 <= v <= n)%Z ->
            slice_length n ((n - v) / 2) ((n - v) / 2 + v) = v).
  { intros n v Hv. unfold slice_length, slice_bound.
    assert (0 <= (n - v) / 2)%Z by (apply Z.div_pos; lia).
    assert ((n - v) / 2 * 2 <= n - v)%Z
      by (rewrite Z.mul_comm; apply Z.mul_div_le; lia).
    set (q := ((n - v) / 2)%Z) in *.
    destruct (Z.ltb_spec q 0); [lia|].
    destruct (Z.ltb_spec (q + v) 0); [lia|].
    destruct (Z.ltb_spec q 0); [lia|].
    destruct (Z.ltb_spec (q + v) 0); [lia|].
    destruct (Z.ltb_spec n q); [lia|].
    destruct (Z.ltb_spec n (q + v)); lia. }
  rewrite !Hfit by assumption. unfold broadcastable. rewrite !Z.eqb_refl.
  reflexivity.
Qed.

(** Whenever [resize_and_pad_video] returns a clip, it is the scaled clip
    and it has the size of the canvas: no padded clip is ever returned. *)
Lemma resize_and_pad_video_returns_scaled self clip st out st' :
  resize_and_pad_video self clip st = (Ok out, st') ->
  out = v_resize clip (cover_ratio self clip) /\
  v_size out = video_size self.
Proof.
  intros E.
  destruct (Z.eq_dec (fst (v_size clip)) 0) as [Hw|Hw].
  { exfalso. unfold resize_and_pad_video, py_truediv in E.
    destruct (video_size self) as [W H]. unfold_monad_in E.
    rewrite Hw in E. cbn in E. discriminate. }
  destruct (Z.eq_dec (snd (v_size clip)) 0) as [Hh|Hh].
  { exfalso. unfold resize_and_pad_video, py_truediv in E.
    destruct (video_size self) as [W H]. unfold_monad_in E.
    apply Z.eqb_neq in Hw. rewrite Hw, Hh in E. cbn in E. discriminate. }
  destruct (size_eqb (v_size (v_resize clip (cover_ratio self clip)))
              (video_size self)) eqn:Heq.
  - rewrite (resize_and_pad_video_same self clip st Hw Hh Heq) in E.
    injection E as <- _. split; [reflexivity|]. now apply size_eqb_eq.
  - rewrite (resize_and_pad_video_pads self clip st Hw Hh Heq) in E.
    discriminate.
Qed.

(** C3.  [resize_and_pad_video] scales the clip by the larger of the two
    float quotients W/w and H/h; the scaled size is [int(ratio * w)] by
    [int(ratio * h)].  When that is the size of the canvas, the scaled clip
    is returned.  When it is not, no padded frame is ever produced: the
    function raises, and when the scaled frame exceeds the canvas in a
    direction, the frame function [make_frame] it wrote cannot store the
    frame at the centring offsets at any time [t].  So a clip that is
    returned is always the scaled clip, of the size of the canvas. *)
Theorem resize_and_pad_video_cover_fit :
  forall (self : VideoGenerator) (clip : VideoClip) (st : State),
    (0 < fst (video_size self))%Z -> (0 < snd (video_size self))%Z ->
    (0 < fst (v_size clip))%Z -> (0 < snd (v_size clip))%Z ->
    (exists width_ratio height_ratio,
        py_truediv (fst (video_size self)) (fst (v_size clip)) = Ok width_ratio /\
        py_truediv (snd (video_size self)) (snd (v_size clip)) = Ok height_ratio /\
        width_ratio <= cover_ratio self clip /\
        height_ratio <= cover_ratio self clip /\
        (cover_ratio self clip = width_ratio \/
         cover_ratio self clip = height_ratio)) /\
    v_size (v_resize clip (cover_ratio self clip))
    = (py_int (float_mul (cover_ratio self clip)
                 (binary64 (inject_Z (fst (v_size clip))))),
       py_int (float_mul (cover_ratio self clip)
                 (binary64 (inject_Z (snd (v_size clip)))))) /\
    (v_size (v_resize clip (cover_ratio self clip)) = video_size self ->
     exists st',
       resize_and_pad_video self clip st
       = (Ok (v_resize clip (cover_ratio self clip)), st')) /\
    (v_size (v_resize clip (cover_ratio self clip)) <> video_size self ->
     (exists st',
        resize_and_pad_video self clip st
        = (Raise (mkExc "TypeError"
                    "__init__() got an unexpected keyword argument 'make_frame'"),
           st')) /\
     ((fst (video_size self)
         < fst (v_size (v_resize clip (cover_ratio self clip))))%Z \/
      (snd (video_size self)
         < snd (v_size (v_resize clip (cover_ratio self clip))))%Z ->
      forall t, exists e,
        make_frame (v_resize clip (cover_ratio self clip))
          (fst (video_size self)) (snd (video_size self)) t = Raise e)) /\
    (forall out st',
        resize_and_pad_video self clip st = (Ok out, st') ->
        out = v_resize clip (cover_ratio self clip) /\
        v_size out = video_size self).
Proof.
  intros self clip st HW HH Hw Hh.
  split.
  { unfold py_truediv.
    destruct (Z.eqb_spec (fst (v_size clip)) 0) as [E|_]; [lia|].
    destruct (Z.eqb_spec (snd (v_size clip)) 0) as [E|_]; [lia|].
    eexists _, _. split; [reflexivity|]. split; [reflexivity|].
    split; [apply py_max2_ge_l|]. split; [apply py_max2_ge_r|].
    unfold cover_ratio, py_max2.
    destruct (Qlt_bool _ _); [right|left]; reflexivity. }
  split; [reflexivity|]. split; [|split].
  - intros Heq. eexists.
    apply resize_and_pad_video_same; try lia. now apply size_eqb_eq.
  - intros Hne. split.
    + eexists. apply resize_and_pad_video_pads; try lia.
      destruct (size_eqb _ _) eqn:E; [|reflexivity].
      apply size_eqb_eq in E. contradiction.
    + intros Hbig t.
      destruct (v_get_frame (v_resize clip (cover_ratio self clip)) t)
        as [[rows cols]|e] eqn:Hf.
      * eexists.
        apply (make_frame_too_large _ _ _ _ rows cols); try assumption.
        unfold v_resize in Hf, Hbig. cbn [v_get_frame v_size fst snd] in Hf, Hbig.
        destruct (v_get_frame clip t); [|discriminate].
        injection Hf as <- <-. destruct Hbig; [right | left]; assumption.
      * exists e. unfold make_frame. rewrite Hf. reflexivity.
  - intros out st' E. exact (resize_and_pad_video_returns_scaled _ _ _ _ _ E).
Qed.

(** A landscape source of 1920 x 1080 on the canvas of 1080 x 1440. *)
Lemma resize_and_pad_video_cover_fit_witness :
  v_size (v_resize landscape_clip (cover_ratio demo_self landscape_clip))
    = (2560, 1440)%Z /\
  (exists st',
     resize_and_pad_video demo_self landscape_clip demo_state
     = (Raise (mkExc "TypeError"
                 "__init__() got an unexpected keyword argument 'make_frame'"),
        st')) /\
  (forall t, exists e,
      make_frame (v_resize landscape_clip (cover_ratio demo_self landscape_clip))
        1080 1440 t = Raise e).
Proof.
  destruct (resize_and_pad_video_cover_fit demo_self landscape_clip demo_state)
    as (_ & _ & _ & Hpad & _); try reflexivity.
  destruct Hpad as [Hraise Hframe]; [vm_compute; discriminate|].
  split; [vm_compute; reflexivity|]. split; [exact Hraise|].
  apply Hframe. left. vm_compute. reflexivity.
Defined.

(** Rounding at work: a source of 1050 x 1400 has the proportions of the
    canvas of 1080 x 1440, the float ratio 1080/1050 times 1400 falls just
    short of 1440, and the scaled clip of 1080 x 1439 takes the padding
    branch.  Here the frame function would have padded the frame. *)
Lemma resize_and_pad_video_rounds_down :
  v_size (v_resize rounded_clip (cover_ratio demo_self rounded_clip))
    = (1080, 1439)%Z /\
  (exists st',
     resize_and_pad_video demo_self rounded_clip demo_state
     = (Raise (mkExc "TypeError"
                 "__init__() got an unexpected keyword argument 'make_frame'"),
        st')) /\
  (forall t,
      make_frame (v_resize rounded_clip (cover_ratio demo_self rounded_clip))
        1080 1440 t = Ok (1440, 1080)%Z).
Proof.
  assert (Hsize :
    v_size (v_resize rounded_clip (cover_ratio demo_self rounded_clip))
    = (1080, 1439)%Z) by (vm_compute; reflexivity).
  split; [exact Hsize|]. split.
  - eexists.
    apply (resize_and_pad_video_pads demo_self rounded_clip demo_state).
    + cbn. discriminate.
    + cbn. discriminate.
    + rewrite Hsize. reflexivity.
  - intros t. apply (make_frame_fits _ _ _ _ 1439 1080)%Z; try lia.
    vm_compute. reflexivity.
Qed.

(** C9.  Whenever [resize_and_pad_video] takes its padding branch, it
    returns no clip at all, whatever the duration, the frame rate and the
    sound of the source: the constructor call that opens the branch raises,
    and the lines that would copy the duration, the frame rate and the
    sound are never reached. *)
Theorem resize_and_pad_video_padding_branch_raises :
  forall (self : VideoGenerator) (clip : VideoClip) (st : State),
    (0 < fst (video_size self))%Z -> (0 < snd (video_size self))%Z ->
    (0 < fst (v_size clip))%Z -> (0 < snd (v_size clip))%Z ->
    size_eqb (v_size (v_resize clip (cover_ratio self clip))) (video_size self)
      = false ->
    (exists st',
        resize_and_pad_video self clip st
        = (Raise (mkExc "TypeError"
                    "__init__() got an unexpected keyword argument 'make_frame'"),
           st') /\
        trace st' = trace st ++
          [ EvLog [Str "调整视频尺寸:"];
            EvLog [Str "原始尺寸: "; Size (v_size clip)];
            EvLog [Str "缩放后尺寸: ";
                   Size (v_size (v_resize clip (cover_ratio self clip)))];
            EvLog [Str "添加黑色填充以匹配目标尺寸"] ] /\
        files st' = files st) /\
    (forall out st', resize_and_pad_video self clip st <> (Ok out, st')).
Proof.
  intros self clip st HW HH Hw Hh Hne.
  pose proof (resize_and_pad_video_pads self clip st ltac:(lia) ltac:(lia) Hne)
    as Hrun.
  split.
  - eexists. split; [exact Hrun|]. split; reflexivity.
  - intros out st' E. rewrite Hrun in E. discriminate.
Qed.

Lemma resize_and_pad_video_padding_branch_raises_witness :
  (exists st',
      resize_and_pad_video demo_self landscape_clip demo_state
      = (Raise (mkExc "TypeError"
                  "__init__() got an unexpected keyword argument 'make_frame'"),
         st') /\
      trace st' = trace demo_state ++
        [ EvLog [Str "调整视频尺寸:"];
          EvLog [Str "原始尺寸: "; Size (v_size landscape_clip)];
          EvLog [Str "缩放后尺寸: ";
                 Size (v_size (v_resize landscape_clip
                                 (cover_ratio demo_self landscape_clip)))];
          EvLog [Str "添加黑色填充以匹配目标尺寸"] ] /\
      files st' = files demo_state) /\
  (forall out st',
      resize_and_pad_video demo_self landscape_clip demo_state
      <> (Ok out, st')).
Proof.
  apply (resize_and_pad_video_padding_branch_raises demo_self landscape_clip
           demo_state); reflexivity.
Defined.

(** ** [create_image_video] and the picture loop of [create_video] *)

Lemma create_image_video_ok w self p duration i st img :
  (0 < fst (video_size self))%Z -> (0 < snd (video_size self))%Z ->
  files st p = Some (FImage img) ->
  jpeg_writable (im_mode img) = true ->
  create_image_video w self p duration (image_name i) st =
    (Ok (image_clip_of self i duration),
     mkState
       (write_file (temp_image_path self (image_name i))
          (FImage (mkImageData (video_size self) (im_mode img))) (files st))
       (tts_calls st)
       (trace st ++
          [ EvLog [Str "=== 处理图片视频: "; Str (image_name i); Str " ==="];
            EvImageOpen p;
            EvImageSave (temp_image_path self (image_name i));
            EvImageLoad (temp_image_path self (image_name i));
            EvLog [Str "图片视频信息:"];
            EvLog [Str "- 尺寸: "; Size (video_size self)];
            EvLog [Str "- 持续时间: "; Fix3 duration; Str "秒"] ])).
Proof.
  intros HW HH Hf Hmode.
  unfold create_image_video, Image_open, Image_resize, Image_save_jpeg, ImageClip.
  unfold_monad. norm_state. rewrite Hf. norm_state.
  apply Z.ltb_lt in HW, HH. rewrite HW, HH. cbn [andb im_mode]. norm_state.
  rewrite Hmode. norm_state. rewrite write_file_same. norm_state.
  reflexivity.
Qed.

(** Once the pictures are used up the loop leaves everything as it is. *)
Lemma create_video_images_exhausted w self image_paths rest :
  forall i acc st,
    (length image_paths <= i - 1)%nat ->
    create_video_images w self image_paths rest i acc st = (Ok acc, st).
Proof.
  induction rest as [|[[a s] d] rest IH]; intros i acc st Hi; [reflexivity|].
  cbn [create_video_images].
  assert (E : (i - 1 <? length image_paths)%nat = false)
    by (apply Nat.ltb_ge; exact Hi).
  rewrite E. unfold_monad. apply IH. lia.
Qed.

Lemma In_firstn_In {A} (x : A) : forall n l, In x (firstn n l) -> In x l.
Proof.
  induction n as [|n IH]; intros [|y l] H; cbn in H; try contradiction.
  destruct H as [->|H]; [now left | right; now apply IH].
Qed.

Lemma write_file_other p f fs q : q <> p -> write_file p f fs q = fs q.
Proof.
  intros H. unfold write_file. apply String.eqb_neq in H. now rewrite H.
Qed.

Lemma create_video_images_ok w self rest :
  forall used remaining i acc st,
    (0 < fst (video_size self))%Z -> (0 < snd (video_size self))%Z ->
    i = S (length used) ->
    (forall p k, In p remaining -> p <> temp_image_path self (image_name k)) ->
    (forall p, In p (firstn (length rest) remaining) -> loadable (files st) p) ->
    create_video_images w self (used ++ remaining) rest i acc st =
      (Ok (acc ++ paired_tracks self remaining rest i),
       mkState (paired_files self remaining rest i (files st)) (tts_calls st)
         (trace st ++ paired_events self remaining rest i)).
Proof.
  induction rest as [|[[a s] d] rest IH];
    intros used remaining i acc st HW HH Hi Hfresh Hload.
  - cbn. unfold ret. destruct remaining; cbn; rewrite !app_nil_r; now destruct st.
  - destruct remaining as [|p remaining].
    + rewrite create_video_images_exhausted
        by (rewrite app_nil_r; subst i; cbn; lia).
      cbn. rewrite !app_nil_r. now destruct st.
    + destruct (Hload p) as (img & Hf & Hmode); [cbn; now left|].
      cbn [create_video_images].
      assert (E : (i - 1 <? length (used ++ p :: remaining))%nat = true).
      { apply Nat.ltb_lt. rewrite length_app. subst i. cbn. lia. }
      assert (Hn : nth_error (used ++ p :: remaining) (i - 1) = Some p).
      { subst i. cbn [Nat.sub]. rewrite Nat.sub_0_r.
        rewrite nth_error_app2 by lia. now rewrite Nat.sub_diag. }
      rewrite E, Hn. unfold_monad. norm_state.
      fold (image_name i).
      rewrite (create_image_video_ok w self p d i _ img HW HH) by
        (norm_state; assumption).
      norm_state.
      replace (used ++ p :: remaining) with ((used ++ [p]) ++ remaining)
        by (rewrite <- app_assoc; reflexivity).
      rewrite (IH (used ++ [p]) remaining (S i)); try assumption.
      * cbn [paired_tracks paired_events paired_files image_events].
        norm_state. rewrite Hf. reflexivity.
      * rewrite length_app. cbn. lia.
      * intros q k Hq. apply Hfresh. now right.
      * intros q Hq. norm_state.
        destruct (Hload q) as (img' & Hf' & Hmode'); [cbn; now right|].
        exists img'. split; [|exact Hmode'].
        rewrite write_file_other; [exact Hf'|].
        apply Hfresh. right. eapply In_firstn_In; eassumption.
Qed.

Lemma paired_tracks_length self image_paths : forall rest i,
  length (paired_tracks self image_paths rest i)
  = Nat.min (length image_paths) (length rest).
Proof.
  induction image_paths as [|p paths IH]; intros [|[[a s] d] rest] i;
    cbn; try reflexivity.
  now rewrite IH.
Qed.

Lemma paired_events_opens self image_paths : forall rest i,
  filter is_image_open (paired_events self image_paths rest i)
  = map EvImageOpen (firstn (length rest) image_paths).
Proof.
  induction image_paths as [|p paths IH]; intros [|[[a s] d] rest] i;
    cbn [paired_events length firstn map]; try reflexivity.
  unfold image_events. cbn [app filter is_image_open]. now rewrite IH.
Qed.

Lemma paired_tracks_nth self image_paths : forall rest i k p a s d,
  nth_error image_paths k = Some p ->
  nth_error rest k = Some (a, s, d) ->
  nth_error (paired_tracks self image_paths rest i) k
  = Some (v_set_start (image_clip_of self (i + k) d) s) /\
  exists before after,
    paired_events self image_paths rest i
    = before ++ image_events self (i + k) p d ++ after.
Proof.
  induction image_paths as [|p0 paths IH]; intros [|[[a0 s0] d0] rest] i k p a s d Hp Hr;
    destruct k as [|k]; cbn in Hp, Hr; try discriminate.
  - injection Hp as ->. injection Hr as -> -> ->.
    rewrite Nat.add_0_r. split; [reflexivity|].
    exists [], (paired_events self paths rest (S i)). reflexivity.
  - destruct (IH rest (S i) k p a s d Hp Hr) as (Hn & before & after & He).
    replace (i + S k)%nat with (S i + k)%nat by lia. split; [exact Hn|].
    exists (image_events self i p0 d0 ++ before), after.
    cbn [paired_events]. rewrite He, <- app_assoc. reflexivity.
Qed.

(** The loop that follows the intro clip pairs the pictures with the
    narration entries that follow the first one, in list order, and opens
    exactly the pictures it pairs. *)
Lemma create_video_images_pairs :
  forall (w : World) (self : VideoGenerator) (image_paths : list string)
         (audio_segments : list AudioSegment) (first_clip : VideoClip)
         (st : State),
    (0 < fst (video_size self))%Z -> (0 < snd (video_size self))%Z ->
    (forall p k, In p image_paths -> p <> temp_image_path self (image_name k)) ->
    (forall p, In p (firstn (length audio_segments - 1) image_paths) ->
               loadable (files st) p) ->
    exists tracks evs st',
      create_video_images w self image_paths (tl audio_segments) 1 [first_clip] st
      = (Ok (first_clip :: tracks), st') /\
      trace st' = trace st ++ evs /\
      length tracks
      = Nat.min (length image_paths) (length audio_segments - 1) /\
      filter is_image_open evs
      = map EvImageOpen (firstn (length audio_segments - 1) image_paths) /\
      (forall k p a s d,
          (1 <= k)%nat ->
          nth_error image_paths (k - 1) = Some p ->
          nth_error audio_segments k = Some (a, s, d) ->
          exists c,
            nth_error (first_clip :: tracks) k = Some c /\
            v_origin c = FromImageFile (temp_image_path self (image_name k)) /\
            v_start c = s /\ v_duration c = Some d /\
            v_size c = video_size self /\
            exists before after,
              evs = before ++ image_events self k p d ++ after).
Proof.
  intros w self image_paths audio_segments first_clip st HW HH Hfresh Hload.
  assert (Hlen : length (tl audio_segments) = (length audio_segments - 1)%nat).
  { destruct audio_segments; cbn; lia. }
  exists (paired_tracks self image_paths (tl audio_segments) 1),
         (paired_events self image_paths (tl audio_segments) 1).
  eexists. split.
  - apply (create_video_images_ok w self (tl audio_segments) [] image_paths 1
             [first_clip] st HW HH eq_refl Hfresh).
    now rewrite Hlen.
  - cbn [trace]. split; [reflexivity|].
    split; [now rewrite paired_tracks_length, Hlen|].
    split; [now rewrite paired_events_opens, Hlen|].
    intros k p a s d Hk Hp Hs.
    destruct k as [|k]; [lia|]. cbn [Nat.sub] in Hp. rewrite Nat.sub_0_r in Hp.
    assert (Hs' : nth_error (tl audio_segments) k = Some (a, s, d)).
    { destruct audio_segments; [discriminate|exact Hs]. }
    destruct (paired_tracks_nth self image_paths (tl audio_segments) 1 k p a s d
                Hp Hs') as (Hn & before & after & He).
    exists (v_set_start (image_clip_of self (S k) d) s).
    cbn [nth_error]. split; [exact Hn|].
    repeat split. exists before, after. exact He.
Qed.

(** ** The scenario of seven captions *)

Lemma demo_synthesizes :
  synthesizes demo_world 0 setup_segments (map demo_clip demo_durations).
Proof. cbn. repeat split. Qed.

Lemma demo_durations_nonneg :
  Forall (fun c => 0 <= ad_duration c) (map demo_clip demo_durations).
Proof. cbn. repeat constructor; discriminate. Qed.

(** Seven captions of 3, 2.5, 3.2, 2.8, 3, 2.9 and 3.1 seconds: the run
    returns seven entries and the narration lasts 20.5 seconds. *)
Lemma generate_audio_segments_cumulative_starts_witness :
  exists tl st',
    generate_audio_segments demo_world demo_self demo_state = (Ok tl, st') /\
    length tl = 7%nat /\
    exists voice, narration_mix tl = Ok voice /\ a_duration voice == 41 # 2.
Proof.
  destruct (generate_audio_segments_cumulative_starts demo_world demo_self
              demo_state (map demo_clip demo_durations)
              demo_synthesizes demo_durations_nonneg)
    as (tl & st' & Hrun & Hlen & _ & Hmix).
  exists tl, st'. split; [exact Hrun|]. split; [exact Hlen|].
  destruct Hmix as (voice & Hv & Hd); [discriminate|].
  exists voice. split; [exact Hv|]. rewrite Hd. reflexivity.
Defined.

(** The provider fails on the third caption. *)
Lemma generate_audio_segments_fail_fast_witness :
  exists st' evs,
    generate_audio_segments flaky_world demo_self demo_state
    = (Raise (mkExc "gTTSError" "Failed to connect"), st') /\
    trace st' = trace demo_state ++ evs ++
      [EvLog [Str "错误: 生成音频失败 "; Str "silver"; Str ": ";
              Str "Failed to connect"]] /\
    filter is_tts_event evs
    = map (tts_request demo_self) (firstn 3 setup_segments) /\
    tts_calls st' = 3%nat.
Proof.
  apply (generate_audio_segments_fail_fast flaky_world demo_self demo_state
           (firstn 2 setup_segments) (skipn 3 setup_segments)
           (mkSegment "silver" "白银马克杯" 6 3)
           (map demo_clip (firstn 2 demo_durations))
           (mkExc "gTTSError" "Failed to connect")).
  - reflexivity.
  - cbn. repeat split.
  - reflexivity.
Defined.



(** ** [process_video_by_duration] *)



(** ** Files that a run leaves alone *)

Lemma timeline_files_other self segs : forall clips fs q,
  ~ In q (map (voice_path self) segs) ->
  timeline_files self segs clips fs q = fs q.
Proof.
  induction segs as [|seg segs IH]; intros [|c clips] fs q Hq;
    cbn [timeline_files]; try reflexivity.
  rewrite IH by (intros H; apply Hq; now right).
  apply write_file_other. intros ->. apply Hq. now left.
Qed.


(** ** [create_video]: the narration stage *)

Lemma generate_audio_segments_ok w self st clips :
  synthesizes w (tts_calls st) (segments self) clips ->
  generate_audio_segments w self st =
    (Ok (timeline_from self (segments self) clips 0),
     mkState (timeline_files self (segments self) clips (files st))
             (tts_calls st + length (segments self))
             (trace st ++
                EvLog [Str "========== 开始生成音频片段 =========="]
                :: timeline_events self (segments self) clips 0)).
Proof.
  intros H. unfold generate_audio_segments.
  erewrite bind_ok by reflexivity.
  rewrite (generate_audio_loop_ok w self (segments self) clips)
    by (cbn [tts_calls]; exact H).
  norm_state. reflexivity.
Qed.

(** The provider answers every caption, or there is a first caption it
    fails on. *)
Lemma synthesizes_or_fails w segs : forall k,
  (exists clips, synthesizes w k segs clips) \/
  (exists pre seg post clips e,
      segs = pre ++ seg :: post /\
      synthesizes w k pre clips /\
      gtts w (k + length pre) (text seg) "zh-cn" = Raise e).
Proof.
  induction segs as [|seg segs IH]; intros k.
  - left. now exists [].
  - destruct (gtts w k (text seg) "zh-cn") as [c|e] eqn:Hc.
    + destruct (IH (S k)) as [(clips & Hs) | (pre & s & post & clips & e & -> & Hs & He)].
      * left. exists (c :: clips). now split.
      * right. exists (seg :: pre), s, post, (c :: clips), e.
        split; [reflexivity|]. split; [now split|].
        cbn [length]. now rewrite Nat.add_succ_r.
    + right. exists [], seg, segs, [], e.
      split; [reflexivity|]. split; [exact I|].
      cbn [length]. now rewrite Nat.add_0_r.
Qed.

Lemma timeline_events_no_listdir self segs : forall clips t,
  filter is_listdir_event (timeline_events self segs clips t) = [].
Proof.
  induction segs as [|seg segs IH]; intros [|c clips] t; cbn; auto.
Qed.

(** A run whose narration stage fails. *)
Lemma create_video_narration_fails w self video_folder image_paths bgm_path st
    pre seg post clips e :
  segments self = pre ++ seg :: post ->
  synthesizes w (tts_calls st) pre clips ->
  gtts w (tts_calls st + length pre) (text seg) "zh-cn" = Raise e ->
  exists fs,
    create_video w self video_folder image_paths bgm_path st
    = (Raise e,
       mkState fs (tts_calls st + length pre + 1)
         (trace st ++
            [ EvLog [Str "========== 开始生成视频 =========="];
              EvLog [Str "--- 第1步：生成音频片段 ---"];
              EvLog [Str "========== 开始生成音频片段 =========="] ]
            ++ timeline_events self pre clips 0
            ++ [ EvLog [Str "--- 处理音频片段: "; Str (name seg); Str " ---"];
                 EvLog [Str "文本内容: "; Str (text seg)];
                 tts_request self seg;
                 EvLog [Str "错误: 生成音频失败 "; Str (name seg); Str ": ";
                        Str (exc_msg e)];
                 EvLog [Str "错误: 创建视频失败: "; Str (exc_msg e)];
                 EvLogClose ])).
Proof.
  intros Hsegs Hsyn He.
  destruct (generate_audio_loop_raise w self pre seg post clips e [] 0
              (mkState (files st) (tts_calls st)
                 (trace st ++
                    [ EvLog [Str "========== 开始生成视频 =========="];
                      EvLog [Str "--- 第1步：生成音频片段 ---"];
                      EvLog [Str "========== 开始生成音频片段 =========="] ]))
              Hsyn He) as (fs & Hrun).
  exists fs.
  unfold create_video, create_video_body, generate_audio_segments.
  unfold_monad. norm_state. rewrite Hsegs.
  cbn [app] in Hrun |- *. rewrite Hrun. norm_state. reflexivity.
Qed.

(** C5 (as the code has it).  When the listing of the video folder holds no
    name ending in [.mp4] or [.MP4], [create_video] never succeeds.  The
    folder is examined in step 2 only.  If the provider answers every
    caption, the run raises [Exception("未找到视频文件")] after the whole
    narration stage (every caption has been sent to the provider and its
    clip loaded) and before any other step: the trace holds the narration
    effects, the listing, the error line and the closing of the log, and
    nothing else.  If the provider fails on a caption, the run raises the
    exception of the provider, after one request per caption up to that
    one, and the folder is never listed. *)
Theorem create_video_no_video_file :
  forall (w : World) (self : VideoGenerator) (video_folder : string)
         (image_paths : list string) (bgm_path : option string) (st : State)
         (names : list string),
    listdir w video_folder = Ok names ->
    filter is_video_name names = [] ->
    (exists e st',
        create_video w self video_folder image_paths bgm_path st
        = (Raise e, st')) /\
    (forall clips,
        synthesizes w (tts_calls st) (segments self) clips ->
        exists st',
          create_video w self video_folder image_paths bgm_path st
          = (Raise (mkExc "Exception" "未找到视频文件"), st') /\
          trace st' = trace st ++ opening_events self clips video_folder ++
            [ EvLog [Str "错误: 创建视频失败: "; Str "未找到视频文件"];
              EvLogClose ] /\
          filter is_tts_event (trace st')
          = filter is_tts_event (trace st)
            ++ map (tts_request self) (segments self)) /\
    (forall pre seg post clips e,
        segments self = pre ++ seg :: post ->
        synthesizes w (tts_calls st) pre clips ->
        gtts w (tts_calls st + length pre) (text seg) "zh-cn" = Raise e ->
        exists st',
          create_video w self video_folder image_paths bgm_path st
          = (Raise e, st') /\
          trace st' = trace st ++
            [ EvLog [Str "========== 开始生成视频 =========="];
              EvLog [Str "--- 第1步：生成音频片段 ---"];
              EvLog [Str "========== 开始生成音频片段 =========="] ]
            ++ timeline_events self pre clips 0
            ++ [ EvLog [Str "--- 处理音频片段: "; Str (name seg); Str " ---"];
                 EvLog [Str "文本内容: "; Str (text seg)];
                 tts_request self seg;
                 EvLog [Str "错误: 生成音频失败 "; Str (name seg); Str ": ";
                        Str (exc_msg e)];
                 EvLog [Str "错误: 创建视频失败: "; Str (exc_msg e)];
                 EvLogClose ] /\
          filter is_listdir_event (trace st')
          = filter is_listdir_event (trace st) /\
          filter is_tts_event (trace st')
          = filter is_tts_event (trace st)
            ++ map (tts_request self) (pre ++ [seg])).
Proof.
  intros w self video_folder image_paths bgm_path st names Hls Hnone.
  assert (Hall : forall clips,
    synthesizes w (tts_calls st) (segments self) clips ->
    create_video w self video_folder image_paths bgm_path st
    = (Raise (mkExc "Exception" "未找到视频文件"),
       mkState (timeline_files self (segments self) clips (files st))
         (tts_calls st + length (segments self))
         (trace st ++ opening_events self clips video_folder ++
            [ EvLog [Str "错误: 创建视频失败: "; Str "未找到视频文件"];
              EvLogClose ]))).
  { intros clips Hsyn.
    unfold create_video, create_video_body, os_listdir.
    unfold_monad. norm_state.
    rewrite (generate_audio_segments_ok w self _ clips)
      by (norm_state; exact Hsyn).
    norm_state. rewrite Hls, Hnone. unfold opening_events. norm_state.
    reflexivity. }
  split; [|split].
  - destruct (synthesizes_or_fails w (segments self) (tts_calls st))
      as [(clips & Hsyn) | (pre & seg & post & clips & e & Hsegs & Hsyn & He)].
    + eexists _, _. exact (Hall clips Hsyn).
    + destruct (create_video_narration_fails w self video_folder image_paths
                  bgm_path st pre seg post clips e Hsegs Hsyn He) as (fs & Hrun).
      eexists _, _. exact Hrun.
  - intros clips Hsyn.
    eexists. split; [exact (Hall clips Hsyn)|]. cbn [trace].
    split; [reflexivity|].
    unfold opening_events. rewrite !filter_app. cbn [filter is_tts_event app].
    rewrite timeline_events_requests
      by (eapply synthesizes_length; eassumption).
    rewrite !app_nil_r. reflexivity.
  - intros pre seg post clips e Hsegs Hsyn He.
    destruct (create_video_narration_fails w self video_folder image_paths
                bgm_path st pre seg post clips e Hsegs Hsyn He) as (fs & Hrun).
    eexists. split; [exact Hrun|]. cbn [trace]. split; [reflexivity|]. split.
    + rewrite !filter_app, timeline_events_no_listdir.
      cbn [filter is_listdir_event tts_request app].
      now rewrite app_nil_r.
    + rewrite !filter_app. cbn [filter is_tts_event tts_request app].
      rewrite timeline_events_requests
        by (eapply synthesizes_length; eassumption).
      rewrite map_app. reflexivity.
Qed.

Lemma create_video_no_video_file_witness :
  exists st',
    create_video demo_world demo_self "./empty" demo_images None demo_state
    = (Raise (mkExc "Exception" "未找到视频文件"), st') /\
    filter is_tts_event (trace st')
    = map (tts_request demo_self) setup_segments.
Proof.
  destruct (create_video_no_video_file demo_world demo_self "./empty"
              demo_images None demo_state ["notes.txt"] eq_refl eq_refl)
    as (_ & Hall & _).
  destruct (Hall (map demo_clip demo_durations) demo_synthesizes)
    as (st' & Hrun & _ & Hreq).
  exists st'. split; [exact Hrun | exact Hreq].
Defined.

(** C5 as stated fails: with a folder that holds no video, the seven
    captions are synthesised before the run aborts. *)
Lemma create_video_no_video_file_synthesizes_first :
  listdir demo_world "./empty" = Ok ["notes.txt"] /\
  filter is_video_name ["notes.txt"] = [] /\
  fst (create_video demo_world demo_self "./empty" demo_images None demo_state)
  = Raise (mkExc "Exception" "未找到视频文件") /\
  filter is_tts_event
    (trace (snd (create_video demo_world demo_self "./empty" demo_images None
                   demo_state)))
  = map (tts_request demo_self) setup_segments /\
  length (filter is_tts_event
            (trace (snd (create_video demo_world demo_self "./empty"
                           demo_images None demo_state)))) = 7%nat.
Proof. repeat split; vm_compute; reflexivity. Qed.

(** ** [create_video]: a run that goes through *)


Lemma timeline_events_no_write self segs : forall clips t,
  filter is_write_event (timeline_events self segs clips t) = [].
Proof.
  induction segs as [|seg segs IH]; intros [|c clips] t; cbn; auto.
Qed.

Lemma paired_events_no_write self image_paths : forall rest i,
  filter is_write_event (paired_events self image_paths rest i) = [].
Proof.
  induction image_paths as [|p paths IH]; intros [|[[a s] d] rest] i; cbn; auto.
Qed.



(** ** Which steps hand a composite video to the encoder *)

Section Quiet.

Context {A B : Type}.

Lemma written_composites_app (l1 l2 : list Event) :
  written_composites (l1 ++ l2) = written_composites l1 ++ written_composites l2.
Proof. unfold written_composites. apply flat_map_app. Qed.

Lemma quiet_same_trace (m : M A) :
  (forall st, trace (snd (m st)) = trace st) -> quiet m.
Proof.
  intros H st r st' E. exists []. rewrite app_nil_r.
  specialize (H st). rewrite E in H. cbn in H. now split.
Qed.

Lemma quiet_ret (a : A) : quiet (ret a).
Proof. now apply quiet_same_trace. Qed.

Lemma quiet_raise (e : Exception) : quiet (@raise A e).
Proof. now apply quiet_same_trace. Qed.

Lemma quiet_lift (r : result A) : quiet (lift r).
Proof. now apply quiet_same_trace. Qed.

Lemma quiet_bind (m : M A) (k : A -> M B) :
  quiet m -> (forall a, quiet (k a)) -> quiet (bind m k).
Proof.
  intros Hm Hk st r st' E. unfold bind in E.
  destruct (m st) as [[a|e] st1] eqn:E1.
  - destruct (Hm _ _ _ E1) as (evs1 & T1 & W1).
    destruct (Hk a _ _ _ E) as (evs2 & T2 & W2).
    exists (evs1 ++ evs2). rewrite T2, T1, <- app_assoc. split; [reflexivity|].
    now rewrite written_composites_app, W1, W2.
  - injection E as <- <-. exact (Hm _ _ _ E1).
Qed.

Lemma quiet_try_except (m : M A) (h : Exception -> M A) :
  quiet m -> (forall e, quiet (h e)) -> quiet (try_except m h).
Proof.
  intros Hm Hh st r st' E. unfold try_except in E.
  destruct (m st) as [[a|e] st1] eqn:E1.
  - injection E as <- <-. exact (Hm _ _ _ E1).
  - destruct (Hm _ _ _ E1) as (evs1 & T1 & W1).
    destruct (Hh e _ _ _ E) as (evs2 & T2 & W2).
    exists (evs1 ++ evs2). rewrite T2, T1, <- app_assoc. split; [reflexivity|].
    now rewrite written_composites_app, W1, W2.
Qed.

End Quiet.

Lemma quiet_emit (e : Event) : written_composites [e] = [] -> quiet (emit e).
Proof.
  intros H st r st' E. unfold emit in E. injection E as <- <-.
  exists [e]. now split.
Qed.

Lemma quiet_log (line : LogLine) : quiet (log line).
Proof. now apply quiet_emit. Qed.

(** Decomposes a goal [quiet m] along the structure of [m]. *)
Ltac quiet_step :=
  first
    [ apply quiet_ret
    | apply quiet_raise
    | apply quiet_lift
    | apply quiet_log
    | apply quiet_emit; reflexivity
    | apply quiet_bind; [|intros ?]
    | apply quiet_try_except; [|intros ?]
    | match goal with
      | |- quiet (match ?x with _ => _ end) => destruct x
      end
    | apply quiet_same_trace; intros ?; cbn;
      repeat match goal with
             | |- context [match ?x with _ => _ end] => destruct x; cbn
             end;
      reflexivity ].

Ltac quiet_tac := repeat quiet_step.

Lemma quiet_generate_audio_loop w self segs : forall acc t,
  quiet (generate_audio_loop w self segs acc t).
Proof.
  induction segs as [|seg segs IH]; intros acc t; cbn [generate_audio_loop].
  - apply quiet_ret.
  - apply quiet_bind; [|intros [acc' t']; apply IH].
    unfold generate_audio_segment, generate_audio_failed, AudioFileClip.
    quiet_tac.
    intros st r st' E. unfold gTTS_save in E.
    exists [EvTtsSave (text seg) "zh-cn" (voice_path self seg)].
    destruct (gtts w _ _ _); injection E as <- <-; now split.
Qed.

Lemma quiet_generate_audio_segments w self : quiet (generate_audio_segments w self).
Proof.
  unfold generate_audio_segments.
  apply quiet_bind; [apply quiet_log | intros _; apply quiet_generate_audio_loop].
Qed.

Lemma quiet_process_video_by_duration w self video_path start duration name :
  quiet (process_video_by_duration w self video_path start duration name).
Proof.
  unfold process_video_by_duration, VideoFileClip, resize_and_pad_video,
    write_videofile.
  quiet_tac.
Qed.

Lemma quiet_create_image_video w self image_path duration name :
  quiet (create_image_video w self image_path duration name).
Proof.
  unfold create_image_video, Image_open, Image_save_jpeg, ImageClip.
  quiet_tac.
Qed.

Lemma quiet_create_video_images w self image_paths rest : forall i acc,
  quiet (create_video_images w self image_paths rest i acc).
Proof.
  induction rest as [|[[a s] d] rest IH]; intros i acc;
    cbn [create_video_images].
  - apply quiet_ret.
  - apply quiet_bind; [|intros acc'; apply IH].
    destruct (i - 1 <? length image_paths)%nat; [|apply quiet_ret].
    apply quiet_bind; [apply quiet_log | intros _].
    apply quiet_bind; [apply quiet_lift | intros p].
    apply quiet_bind; [apply quiet_create_image_video | intros c].
    apply quiet_ret.
Qed.

Lemma quiet_process_bgm self bgm_path total :
  quiet (process_bgm self bgm_path total).
Proof.
  unfold process_bgm, AudioFileClip. quiet_tac.
Qed.

Lemma quiet_create_video_audio self segs bgm_path :
  quiet (create_video_audio self segs bgm_path).
Proof.
  unfold create_video_audio, os_path_exists.
  apply quiet_bind; [apply quiet_lift | intros voice].
  apply quiet_bind; [apply quiet_log | intros _].
  apply quiet_bind.
  - destruct bgm_path as [p|]; [|apply quiet_ret].
    destruct (truthy (Some p)); [|apply quiet_ret]. quiet_tac.
  - intros use_bgm. destruct bgm_path as [p|], use_bgm;
      try (apply quiet_bind; [apply quiet_log | intros _; apply quiet_ret]).
    apply quiet_bind; [apply quiet_process_bgm | intros b].
    quiet_tac.
Qed.

(** ** [create_video]: what a successful run has done *)

Lemma exports_raise w self e : exports w self (raise e).
Proof. intros st p st' E. discriminate. Qed.

Lemma exports_bind {A} w self (m : M A) (k : A -> M string) :
  quiet m -> (forall a, exports w self (k a)) -> exports w self (bind m k).
Proof.
  intros Hm Hk st p st' E. unfold bind in E.
  destruct (m st) as [[a|e] st1] eqn:E1; [|discriminate].
  destruct (Hm _ _ _ E1) as (evs1 & T1 & W1).
  destruct (Hk a _ _ _ E) as (-> & fv & evs2 & T2 & W2 & He & Hf).
  split; [reflexivity|]. exists fv, (evs1 ++ evs2).
  rewrite T2, T1, <- !app_assoc. split; [reflexivity|].
  rewrite written_composites_app, W1, W2. repeat split; assumption.
Qed.

Lemma exports_final w self final_video :
  exports w self
    (write_videofile w (MComposite final_video) (output_path self)
       (final_params self) ;;
     log [Str "处理完成!"] ;;
     ret (output_path self)).
Proof.
  intros st p st' E. unfold write_videofile in E. unfold_monad_in E.
  cbn [files tts_calls trace] in E.
  destruct (encoder w (output_path self)) as [u|e] eqn:Henc; [|discriminate].
  destruct u.
  injection E as <- <-. split; [reflexivity|].
  exists final_video, []. cbn [trace files app]. rewrite <- app_assoc.
  repeat split. apply write_file_same.
Qed.

Lemma exports_create_video_body w self video_folder image_paths bgm_path :
  exports w self (create_video_body w self video_folder image_paths bgm_path).
Proof.
  unfold create_video_body.
  apply exports_bind; [apply quiet_log | intros _].
  apply exports_bind; [apply quiet_log | intros _].
  apply exports_bind; [apply quiet_generate_audio_segments | intros audio_segments].
  apply exports_bind; [apply quiet_log | intros _].
  apply exports_bind; [unfold os_listdir; quiet_tac | intros names].
  destruct (filter is_video_name names) as [|video_file more];
    [apply exports_raise|].
  apply exports_bind; [apply quiet_log | intros _].
  destruct audio_segments as [|[[first_audio first_start] first_duration] rest];
    [apply exports_raise|].
  apply exports_bind; [apply quiet_process_video_by_duration | intros first_clip].
  apply exports_bind; [apply quiet_create_video_images | intros video_clips].
  apply exports_bind; [apply quiet_log | intros _].
  apply exports_bind; [apply quiet_lift | intros final_video].
  apply exports_bind; [apply quiet_log | intros _].
  apply exports_bind; [apply quiet_create_video_audio | intros final_audio].
  apply exports_bind; [apply quiet_log | intros _].
  apply exports_bind; [apply quiet_log | intros _].
  apply exports_bind; [apply quiet_log | intros _].
  apply exports_final.
Qed.

(** C8 (as the code has it).  When [create_video] succeeds it returns
    [output_path self], the file [final_video.mp4] in the output directory
    of the generator: the path is fixed when the generator is built and no
    argument of [create_video] enters it.  During the run exactly one
    composite video was handed to the encoder, as the last step before the
    closing log line, and it is the file now found at that path. *)
Theorem create_video_output_path_fixed :
  forall (w : World) (self : VideoGenerator) (video_folder : string)
         (image_paths : list string) (bgm_path : option string)
         (st st' : State) (p : string),
    create_video w self video_folder image_paths bgm_path st = (Ok p, st') ->
    p = output_path self /\
    exists final_video evs,
      trace st' = trace st ++ evs ++
        [ EvWriteVideofile (MComposite final_video) (output_path self)
            (final_params self);
          EvLog [Str "处理完成!"];
          EvLogClose ] /\
      written_composites (evs ++
        [ EvWriteVideofile (MComposite final_video) (output_path self)
            (final_params self);
          EvLog [Str "处理完成!"];
          EvLogClose ]) = [final_video] /\
      files st' (output_path self)
      = Some (FVideo (encoded (MComposite final_video) (final_params self))).
Proof.
  intros w self video_folder image_paths bgm_path st st' p E.
  unfold create_video, try_finally, try_except in E.
  destruct (create_video_body w self video_folder image_paths bgm_path st)
    as [[p0|e] st1] eqn:Ebody.
  - cbn in E. injection E as <- <-.
    destruct (exports_create_video_body _ _ _ _ _ _ _ _ Ebody)
      as (-> & fv & evs & T & W & _ & Hf).
    split; [reflexivity|]. exists fv, evs. cbn [trace files].
    rewrite T, <- !app_assoc. split; [reflexivity|]. split; [|exact Hf].
    rewrite written_composites_app, W. reflexivity.
  - unfold_monad_in E. cbn in E. discriminate.
Qed.

(** ** [create_video]: which narration entries get a visual track *)



(** ** The scenario of seven captions: whole runs *)





(** A run with the six pictures and no background. *)
Lemma create_video_output_path_fixed_witness :
  "/work/output/final_video.mp4" = output_path demo_self /\
  exists final_video evs,
    trace (snd (create_video demo_world demo_self "./input" demo_images None
                  demo_state))
    = trace demo_state ++ evs ++
        [ EvWriteVideofile (MComposite final_video) (output_path demo_self)
            (final_params demo_self);
          EvLog [Str "处理完成!"];
          EvLogClose ] /\
    written_composites (evs ++
        [ EvWriteVideofile (MComposite final_video) (output_path demo_self)
            (final_params demo_self);
          EvLog [Str "处理完成!"];
          EvLogClose ]) = [final_video] /\
    files (snd (create_video demo_world demo_self "./input" demo_images None
                  demo_state)) (output_path demo_self)
    = Some (FVideo (encoded (MComposite final_video) (final_params demo_self))).
Proof.
  apply (create_video_output_path_fixed demo_world demo_self "./input"
           demo_images None demo_state).
  rewrite (surjective_pairing
             (create_video demo_world demo_self "./input" demo_images None
                demo_state)) at 1.
  f_equal; vm_compute; reflexivity.
Defined.

(** C8 as stated fails: the path of the final video is none of the
    arguments of the call, it is the same for different arguments, and the
    run encodes two video files (the debug cut of the intro and the final
    video) besides the seven narration files. *)
Lemma create_video_output_path_not_an_argument :
  fst (create_video demo_world demo_self "./input" demo_images (Some "bgm.mp3")
         demo_state)
  = Ok "/work/output/final_video.mp4" /\
  fst (create_video demo_world demo_self "./input" [] None demo_state)
  = Ok "/work/output/final_video.mp4" /\
  "/work/output/final_video.mp4" <> "./input" /\
  ~ In "/work/output/final_video.mp4" demo_images /\
  "/work/output/final_video.mp4" <> "bgm.mp3" /\
  map (fun e => match e with
                | EvWriteVideofile _ path _ => path
                | _ => ""
                end)
    (filter is_write_event
       (trace (snd (create_video demo_world demo_self "./input" demo_images
                      (Some "bgm.mp3") demo_state))))
  = [ "/work/debug/20240101_120000/video_intro_debug.mp4";
      "/work/output/final_video.mp4" ] /\
  length (filter is_tts_event
            (trace (snd (create_video demo_world demo_self "./input"
                           demo_images (Some "bgm.mp3") demo_state))))
  = 7%nat.
Proof.
  repeat split; try (vm_compute; reflexivity); try discriminate.
  cbn. intros H. repeat (destruct H as [H | H]; [discriminate|]).
  contradiction.
Qed.

(** ** [create_video]: which pictures are used, and for which entries *)





(** ** What a computation leaves alone: composition *)

Section Preserves.

Context (R : State -> State -> Prop) {HR : PreOrder R}.
Context {A B : Type}.

Lemma preserves_fixed (m : M A) :
  (forall st, snd (m st) = st) -> preserves R m.
Proof.
  intros H st r st' E. specialize (H st). rewrite E in H. cbn in H.
  subst. reflexivity.
Qed.

Lemma preserves_ret (a : A) : preserves R (ret a).
Proof. now apply preserves_fixed. Qed.

Lemma preserves_raise (e : Exception) : preserves R (@raise A e).
Proof. now apply preserves_fixed. Qed.

Lemma preserves_lift (r : result A) : preserves R (lift r).
Proof. now apply preserves_fixed. Qed.

Lemma preserves_bind (m : M A) (k : A -> M B) :
  preserves R m -> (forall a, preserves R (k a)) -> preserves R (bind m k).
Proof.
  intros Hm Hk st r st' E. unfold bind in E.
  destruct (m st) as [[a|e] st1] eqn:E1.
  - transitivity st1; [exact (Hm _ _ _ E1) | exact (Hk a _ _ _ E)].
  - injection E as <- <-. exact (Hm _ _ _ E1).
Qed.

Lemma preserves_try_except (m : M A) (h : Exception -> M A) :
  preserves R m -> (forall e, preserves R (h e)) ->
  preserves R (try_except m h).
Proof.
  intros Hm Hh st r st' E. unfold try_except in E.
  destruct (m st) as [[a|e] st1] eqn:E1.
  - injection E as <- <-. exact (Hm _ _ _ E1).
  - transitivity st1; [exact (Hm _ _ _ E1) | exact (Hh e _ _ _ E)].
Qed.

Lemma preserves_try_finally (m : M A) (f : M unit) :
  preserves R m -> preserves R f -> preserves R (try_finally m f).
Proof.
  intros Hm Hf st r st' E. unfold try_finally in E.
  destruct (m st) as [r1 st1] eqn:E1.
  destruct (f st1) as [[u|e] st2] eqn:E2; injection E as <- <-;
    (transitivity st1; [exact (Hm _ _ _ E1) | exact (Hf _ _ _ E2)]).
Qed.

(** A failure of [bind m k] is a failure of [m], or one of [k] after [m]. *)
Lemma fails_within_bind (m : M A) (k : A -> M B) :
  preserves R m -> (forall a, fails_within R (k a)) ->
  fails_within R (bind m k).
Proof.
  intros Hm Hk st e st' E. unfold bind in E.
  destruct (m st) as [[a|e1] st1] eqn:E1.
  - transitivity st1; [exact (Hm _ _ _ E1) | exact (Hk a _ _ _ E)].
  - injection E as <- <-. exact (Hm _ _ _ E1).
Qed.

End Preserves.

#[global] Instance emitting_preorder (ok : Event -> bool) : PreOrder (emitting ok).
Proof.
  split.
  - intros st. exists []. now rewrite app_nil_r.
  - intros s1 s2 s3 (e1 & T1 & O1) (e2 & T2 & O2).
    exists (e1 ++ e2). rewrite T2, T1, <- app_assoc. split; [reflexivity|].
    rewrite forallb_app, O1, O2. reflexivity.
Qed.

#[global] Instance keeping_preorder (P : string -> Prop) : PreOrder (keeping P).
Proof.
  split.
  - intros st q _. reflexivity.
  - intros s1 s2 s3 H12 H23 q Hq. now rewrite H23, H12.
Qed.

Lemma emitting_emit ok (e : Event) :
  ok e = true -> preserves (emitting ok) (emit e).
Proof.
  intros H st r st' E. unfold emit in E. injection E as <- <-.
  exists [e]. cbn. now rewrite H.
Qed.

Lemma emitting_same_trace ok {A} (m : M A) :
  (forall st, trace (snd (m st)) = trace st) -> preserves (emitting ok) m.
Proof.
  intros H st r st' E. specialize (H st). rewrite E in H. cbn in H.
  exists []. now rewrite app_nil_r.
Qed.

Lemma emitting_gTTS_save ok w text lang path :
  ok (EvTtsSave text lang path) = true ->
  preserves (emitting ok) (gTTS_save w text lang path).
Proof.
  intros H st r st' E. unfold gTTS_save in E.
  exists [EvTtsSave text lang path].
  destruct (gtts w _ _ _); injection E as <- <-; cbn; now rewrite H.
Qed.



(** The composition lemmas with the preorder found by instance search. *)
Ltac pres_ret := apply preserves_ret; exact _.
Ltac pres_raise := apply preserves_raise; exact _.
Ltac pres_lift := apply preserves_lift; exact _.
Ltac pres_bind := (apply preserves_bind; try exact _); [|intros ?].
Ltac pres_try := (apply preserves_try_except; try exact _); [|intros ?].

Lemma emitting_weaken (ok1 ok2 : Event -> bool) {A} (m : M A) :
  (forall e, ok1 e = true -> ok2 e = true) ->
  preserves (emitting ok1) m -> preserves (emitting ok2) m.
Proof.
  intros H Hm st r st' E. destruct (Hm _ _ _ E) as (evs & T & O).
  exists evs. split; [exact T|].
  rewrite forallb_forall in O |- *. auto.
Qed.

Lemma emitting_log ok (line : LogLine) :
  ok (EvLog line) = true -> preserves (emitting ok) (log line).
Proof. apply emitting_emit. Qed.

(** Decomposes a goal [preserves (emitting ok) m] along the structure of
    [m], for a concrete test [ok]. *)
Ltac emitting_step :=
  first
    [ pres_ret
    | pres_raise
    | pres_lift
    | apply emitting_log; reflexivity
    | apply emitting_emit; reflexivity
    | apply emitting_gTTS_save; reflexivity
    | pres_bind
    | pres_try
    | match goal with
      | |- preserves _ (match ?x with _ => _ end) => destruct x
      end
    | apply emitting_same_trace; intros ?; cbn;
      repeat match goal with
             | |- context [match ?x with _ => _ end] => destruct x; cbn
             end;
      reflexivity ].

Ltac emitting_tac := repeat emitting_step.

Lemma emitting_generate_audio_loop w self segs : forall acc t,
  preserves (emitting narration_event) (generate_audio_loop w self segs acc t).
Proof.
  induction segs as [|seg segs IH]; intros acc t; cbn [generate_audio_loop].
  - pres_ret.
  - pres_bind; [|destruct a as [acc' t']; apply IH].
    unfold generate_audio_segment, generate_audio_failed, AudioFileClip.
    emitting_tac.
Qed.

Lemma emitting_generate_audio_segments w self :
  preserves (emitting narration_event) (generate_audio_segments w self).
Proof.
  unfold generate_audio_segments.
  pres_bind;
    [apply emitting_log; reflexivity | apply emitting_generate_audio_loop].
Qed.

Lemma emitting_resize_and_pad_video self clip :
  preserves (emitting intro_event) (resize_and_pad_video self clip).
Proof. unfold resize_and_pad_video. emitting_tac. Qed.

Lemma emitting_process_video_by_duration w self video_path start duration name :
  preserves (emitting intro_event)
    (process_video_by_duration w self video_path start duration name).
Proof.
  unfold process_video_by_duration, VideoFileClip, write_videofile.
  pres_try; [|emitting_tac].
  pres_bind; [emitting_tac|].
  pres_bind; [emitting_tac|].
  pres_bind; [apply emitting_resize_and_pad_video|].
  emitting_tac.
Qed.

Lemma emitting_create_image_video w self image_path duration name :
  preserves (emitting picture_event)
    (create_image_video w self image_path duration name).
Proof.
  unfold create_image_video, Image_open, Image_save_jpeg, ImageClip.
  emitting_tac.
Qed.

Lemma emitting_create_video_images w self image_paths rest : forall i acc,
  preserves (emitting picture_event)
    (create_video_images w self image_paths rest i acc).
Proof.
  induction rest as [|[[a s] d] rest IH]; intros i acc;
    cbn [create_video_images].
  - pres_ret.
  - pres_bind; [|apply IH].
    destruct (i - 1 <? length image_paths)%nat; [|pres_ret].
    pres_bind; [apply emitting_log; reflexivity|].
    pres_bind; [pres_lift|].
    pres_bind; [apply emitting_create_image_video|].
    pres_ret.
Qed.

Lemma emitting_process_bgm self bgm_path total :
  preserves (emitting mix_event) (process_bgm self bgm_path total).
Proof. unfold process_bgm, AudioFileClip. emitting_tac. Qed.

Lemma emitting_create_video_audio self segs bgm_path :
  preserves (emitting mix_event) (create_video_audio self segs bgm_path).
Proof.
  unfold create_video_audio, os_path_exists.
  pres_bind; [pres_lift|].
  pres_bind; [apply emitting_log; reflexivity|].
  pres_bind.
  - destruct bgm_path as [p|]; [|pres_ret].
    destruct (truthy (Some p)); [|pres_ret]. emitting_tac.
  - destruct bgm_path as [p|], a1;
      try (pres_bind; [apply emitting_log; reflexivity | pres_ret]).
    pres_bind; [apply emitting_process_bgm|].
    emitting_tac.
Qed.

(** ** Effects of the stages *)

(** X1.  Whatever its outcome, [generate_audio_segments] only writes log lines,
    sends requests to the provider and loads audio files: it lists no
    folder, opens no video or picture and encodes nothing. *)
Theorem generate_audio_segments_effects :
  forall (w : World) (self : VideoGenerator) (st : State),
  exists evs,
    trace (snd (generate_audio_segments w self st)) = trace st ++ evs /\
    forallb narration_event evs = true.
Proof.
  intros w self st.
  apply (emitting_generate_audio_segments w self st
           (fst (generate_audio_segments w self st))).
  apply surjective_pairing.
Qed.

Lemma emitting_process_bgm_alone self bgm_path total :
  preserves (emitting bgm_event) (process_bgm self bgm_path total).
Proof. unfold process_bgm, AudioFileClip. emitting_tac. Qed.

(** X2.  Whatever their outcome, the three helpers keep to their own effects:
    [process_video_by_duration] logs, loads videos and encodes single
    clips; [create_image_video] logs and opens, saves and loads pictures;
    [process_bgm] logs and loads audio. *)
Theorem helper_stages_effects :
  forall (w : World) (self : VideoGenerator) (st : State),
    (forall video_path start duration name,
        exists evs,
          trace (snd (process_video_by_duration w self video_path start
                        duration name st)) = trace st ++ evs /\
          forallb intro_event evs = true) /\
    (forall image_path duration name,
        exists evs,
          trace (snd (create_image_video w self image_path duration name st))
          = trace st ++ evs /\
          forallb picture_event evs = true) /\
    (forall bgm_path total,
        exists evs,
          trace (snd (process_bgm self bgm_path total st)) = trace st ++ evs /\
          forallb bgm_event evs = true).
Proof.
  intros w self st. repeat split; intros.
  - eapply emitting_process_video_by_duration. apply surjective_pairing.
  - eapply emitting_create_image_video. apply surjective_pairing.
  - eapply emitting_process_bgm_alone. apply surjective_pairing.
Qed.

(** ** Failures are logged, then raised again *)

(** A [try] whose handler logs a line and raises the exception again. *)
Lemma try_except_logged {A} (m : M A) (line : Exception -> LogLine) st e st' :
  preserves (emitting any_event) m ->
  try_except m (fun e => log (line e) ;; raise e) st = (Raise e, st') ->
  exists evs, trace st' = trace st ++ evs ++ [EvLog (line e)].
Proof.
  intros Hm E. unfold try_except in E.
  destruct (m st) as [[a|e1] st1] eqn:E1; [discriminate|].
  destruct (Hm _ _ _ E1) as (evs & T & _).
  unfold_monad_in E. injection E as <- <-.
  exists evs. cbn [trace]. now rewrite T, <- app_assoc.
Qed.

Lemma emitting_any ok {A} (m : M A) :
  preserves (emitting ok) m -> preserves (emitting any_event) m.
Proof. apply emitting_weaken. reflexivity. Qed.

(** X3.  When one of the three helpers fails, the exception it raises is the
    one that occurred inside it, and the last thing it did was to log its
    own error line with [str(e)]. *)
Theorem helper_stages_log_and_reraise :
  forall (w : World) (self : VideoGenerator) (st st' : State) (e : Exception),
    (forall video_path start duration name,
        process_video_by_duration w self video_path start duration name st
        = (Raise e, st') ->
        exists evs,
          trace st' = trace st ++ evs ++
            [EvLog [Str "错误: 处理视频失败: "; Str (exc_msg e)]]) /\
    (forall image_path duration name,
        create_image_video w self image_path duration name st = (Raise e, st') ->
        exists evs,
          trace st' = trace st ++ evs ++
            [EvLog [Str "错误: 处理图片视频失败: "; Str (exc_msg e)]]) /\
    (forall bgm_path total,
        process_bgm self bgm_path total st = (Raise e, st') ->
        exists evs,
          trace st' = trace st ++ evs ++
            [EvLog [Str "错误: 处理BGM失败: "; Str (exc_msg e)]]).
Proof.
  intros w self st st' e. repeat split; intros.
  - unfold process_video_by_duration in H.
    apply (try_except_logged _
             (fun e => [Str "错误: 处理视频失败: "; Str (exc_msg e)])) in H;
      [exact H|].
    apply (emitting_any intro_event).
    unfold VideoFileClip, write_videofile.
    pres_bind; [emitting_tac|].
    pres_bind; [emitting_tac|].
    pres_bind; [apply emitting_resize_and_pad_video|].
    emitting_tac.
  - unfold create_image_video in H.
    apply (try_except_logged _
             (fun e => [Str "错误: 处理图片视频失败: "; Str (exc_msg e)])) in H;
      [exact H|].
    apply (emitting_any picture_event).
    unfold Image_open, Image_save_jpeg, ImageClip. emitting_tac.
  - unfold process_bgm in H.
    apply (try_except_logged _
             (fun e => [Str "错误: 处理BGM失败: "; Str (exc_msg e)])) in H;
      [exact H|].
    apply (emitting_any mix_event).
    unfold AudioFileClip. emitting_tac.
Qed.

Lemma helper_stages_log_and_reraise_witness :
  exists evs,
    trace (snd (create_image_video demo_world demo_self "./images/none.jpg" 3 "image_1"
                  demo_state))
    = trace demo_state ++ evs ++
        [EvLog [Str "错误: 处理图片视频失败: "; Str "./images/none.jpg"]].
Proof.
  apply (proj1 (proj2 (helper_stages_log_and_reraise demo_world demo_self
                         demo_state
                         (snd (create_image_video demo_world demo_self "./images/none.jpg"
                                 3 "image_1" demo_state))
                         (mkExc "FileNotFoundError" "./images/none.jpg")))
           "./images/none.jpg" 3 "image_1").
  rewrite (surjective_pairing
             (create_image_video demo_world demo_self "./images/none.jpg" 3 "image_1"
                demo_state)) at 1.
  f_equal; vm_compute; reflexivity.
Defined.

(** ** [create_video]: the log is always closed *)

Lemma emitting_create_video_body w self video_folder image_paths bgm_path :
  preserves (emitting any_event)
    (create_video_body w self video_folder image_paths bgm_path).
Proof.
  unfold create_video_body, os_listdir, write_videofile.
  pres_bind; [emitting_tac|].
  pres_bind; [emitting_tac|].
  pres_bind; [apply (emitting_any _ _ (emitting_generate_audio_segments w self))|].
  pres_bind; [emitting_tac|].
  pres_bind; [emitting_tac|].
  destruct (filter is_video_name a3) as [|video_file more]; [pres_raise|].
  pres_bind; [emitting_tac|].
  destruct a1 as [|[[first_audio first_start] first_duration] rest];
    [pres_raise|].
  pres_bind;
    [apply (emitting_any _ _ (emitting_process_video_by_duration _ _ _ _ _ _))|].
  pres_bind;
    [apply (emitting_any _ _ (emitting_create_video_images _ _ _ _ _ _))|].
  pres_bind; [emitting_tac|].
  pres_bind; [pres_lift|].
  pres_bind; [emitting_tac|].
  pres_bind;
    [apply (emitting_any _ _ (emitting_create_video_audio _ _ _))|].
  emitting_tac.
Qed.

(** X4.  Whatever happens, the last thing [create_video] does is to close the
    log file; when it fails, the line written just before is
    '错误: 创建视频失败: ' followed by [str(e)] for the exception it
    raises. *)
Theorem create_video_closes_log :
  forall (w : World) (self : VideoGenerator) (video_folder : string)
         (image_paths : list string) (bgm_path : option string) (st : State),
  exists evs,
    trace (snd (create_video w self video_folder image_paths bgm_path st))
    = trace st ++ evs ++ [EvLogClose] /\
    forall e,
      fst (create_video w self video_folder image_paths bgm_path st) = Raise e ->
      exists evs',
        evs = evs' ++ [EvLog [Str "错误: 创建视频失败: "; Str (exc_msg e)]].
Proof.
  intros w self video_folder image_paths bgm_path st.
  unfold create_video, try_finally, try_except.
  destruct (create_video_body w self video_folder image_paths bgm_path st)
    as [[p|e0] st1] eqn:E.
  - destruct (emitting_create_video_body _ _ _ _ _ _ _ _ E) as (evs & T & _).
    exists evs. cbn. rewrite T, <- app_assoc. split; [reflexivity|].
    intros e He. discriminate.
  - destruct (emitting_create_video_body _ _ _ _ _ _ _ _ E) as (evs & T & _).
    exists (evs ++ [EvLog [Str "错误: 创建视频失败: "; Str (exc_msg e0)]]).
    unfold_monad. cbn. rewrite T, <- !app_assoc. split; [reflexivity|].
    intros e He. injection He as <-. now exists evs.
Qed.

(** ** [process_bgm]: a background that is long enough *)

(** X5.  For a background file at least as long as the required duration Dr,
    [process_bgm] returns a track that starts at 0, lasts exactly Dr and
    plays the file at 0.3 of its amplitude; no file is written. *)
Theorem process_bgm_trims_and_attenuates :
  forall (self : VideoGenerator) (bgm_path : string) (total_duration : Q)
         (st : State) (d : AudioData),
    files st bgm_path = Some (FAudio d) ->
    total_duration <= ad_duration d ->
    0 <= total_duration ->
    exists bgm st',
      process_bgm self bgm_path total_duration st = (Ok bgm, st') /\
      a_start bgm = 0 /\
      a_duration bgm == total_duration /\
      a_end bgm == total_duration /\
      (forall t, a_make_frame bgm t = (3 # 10) * ad_signal d (t + 0)) /\
      files st' = files st.
Proof.
  intros self bgm_path total st d Hf Hle Hpos.
  eexists _, _. split; [now apply (process_bgm_long self bgm_path total st d)|].
  cbn [a_start a_duration a_end a_make_frame files].
  repeat split; try reflexivity; ring.
Qed.

Lemma process_bgm_trims_and_attenuates_witness :
  exists bgm st',
    process_bgm demo_self "bgm.mp3" (41 # 2) demo_state = (Ok bgm, st') /\
    a_start bgm = 0 /\
    a_duration bgm == 41 # 2 /\
    a_end bgm == 41 # 2 /\
    (forall t, a_make_frame bgm t = (3 # 10) * ad_signal (demo_clip 60) (t + 0)) /\
    files st' = files demo_state.
Proof.
  apply (process_bgm_trims_and_attenuates demo_self "bgm.mp3" (41 # 2)
           demo_state (demo_clip 60)).
  - reflexivity.
  - vm_compute. discriminate.
  - vm_compute. discriminate.
Defined.

(** ** The narration timeline has no gap and no overlap *)

Lemma timeline_from_abut self segs : forall clips t i a s d a' s' d',
  nth_error (timeline_from self segs clips t) i = Some (a, s, d) ->
  nth_error (timeline_from self segs clips t) (S i) = Some (a', s', d') ->
  s' = s + d /\ a_start a' = a_end a.
Proof.
  induction segs as [|seg segs IH]; intros [|c clips] t i a s d a' s' d' H H';
    try (destruct i; discriminate).
  destruct i as [|i].
  - cbn in H. injection H as <- <- <-.
    destruct segs as [|seg' segs], clips as [|c' clips]; try discriminate.
    cbn in H'. injection H' as <- <- <-. split; reflexivity.
  - cbn [timeline_from nth_error] in H, H'. exact (IH _ _ _ _ _ _ _ _ _ H H').
Qed.

(** X6.  In the timeline [generate_audio_segments] returns, every entry starts
    exactly where the previous one ends: the start of entry i+1 is the
    start of entry i plus its duration, and it is also the end set on the
    clip of entry i. *)
Theorem generate_audio_segments_entries_abut :
  forall (w : World) (self : VideoGenerator) (st st' : State)
         (clips : list AudioData) (tl : list AudioSegment),
    synthesizes w (tts_calls st) (segments self) clips ->
    generate_audio_segments w self st = (Ok tl, st') ->
    forall i a s d a' s' d',
      nth_error tl i = Some (a, s, d) ->
      nth_error tl (S i) = Some (a', s', d') ->
      s' = s + d /\ a_start a' = a_end a /\ a_end a = s + d.
Proof.
  intros w self st st' clips tl Hsyn Hrun i a s d a' s' d' H H'.
  rewrite (generate_audio_segments_ok w self st clips Hsyn) in Hrun.
  injection Hrun as <- _.
  destruct (timeline_from_abut _ _ _ _ _ _ _ _ _ _ _ H H') as [-> Hab].
  split; [reflexivity|]. split; [exact Hab|].
  assert (Hend : forall segs cl t j x y z,
             nth_error (timeline_from self segs cl t) j = Some (x, y, z) ->
             a_end x = y + z).
  { induction segs as [|sg segs IHs]; intros [|c cl] t j x y z Hn;
      try (destruct j; discriminate).
    destruct j as [|j]; cbn in Hn.
    - injection Hn as <- <- <-. reflexivity.
    - exact (IHs _ _ _ _ _ _ Hn). }
  exact (Hend _ _ _ _ _ _ _ H).
Qed.

Lemma generate_audio_segments_entries_abut_witness :
  exists a s d a' s' d',
    nth_error demo_timeline 2 = Some (a, s, d) /\
    nth_error demo_timeline 3 = Some (a', s', d') /\
    s' = s + d /\ a_start a' = a_end a /\ a_end a = s + d.
Proof.
  assert (Hrun :
    generate_audio_segments demo_world demo_self demo_state
    = (Ok demo_timeline,
       snd (generate_audio_segments demo_world demo_self demo_state))).
  { rewrite (surjective_pairing
               (generate_audio_segments demo_world demo_self demo_state)) at 1.
    f_equal; vm_compute; reflexivity. }
  do 6 eexists. split; [reflexivity|]. split; [reflexivity|].
  eapply (generate_audio_segments_entries_abut demo_world demo_self demo_state
            (snd (generate_audio_segments demo_world demo_self demo_state))
            (map demo_clip demo_durations) demo_timeline demo_synthesizes
            Hrun 2%nat); reflexivity.
Defined.

(** ** The picture loop beyond the last picture *)

(** X7.  Once the pictures are used up, the rest of the loop does nothing at
    all: for the remaining narration entries no clip is added, no line is
    logged and the state is untouched. *)
Theorem create_video_images_surplus_is_silent :
  forall (w : World) (self : VideoGenerator) (image_paths : list string)
         (rest : list AudioSegment) (i : nat) (video_clips : list VideoClip)
         (st : State),
    (length image_paths <= i - 1)%nat ->
    create_video_images w self image_paths rest i video_clips st
    = (Ok video_clips, st).
Proof.
  intros w self image_paths rest.
  induction rest as [|[[a s] d] rest IH]; intros i acc st Hi; [reflexivity|].
  cbn [create_video_images].
  assert (E : (i - 1 <? length image_paths)%nat = false)
    by (apply Nat.ltb_ge; exact Hi).
  rewrite E. unfold_monad. apply IH. lia.
Qed.

Lemma create_video_images_surplus_is_silent_witness :
  create_video_images demo_world demo_self (firstn 2 demo_images) (skipn 3 demo_timeline)
    3 [portrait_clip] demo_state
  = (Ok [portrait_clip], demo_state).
Proof.
  apply (create_video_images_surplus_is_silent demo_world demo_self (firstn 2 demo_images)
           (skipn 3 demo_timeline) 3 [portrait_clip] demo_state).
  cbn. lia.
Defined.

(** ** [create_video] without captions *)

(** X8.  With an empty caption list and a video in the folder, [create_video]
    fails on [audio_segments[0]] with [IndexError]: nothing has been
    synthesised, the video is named in the log but never loaded, and no
    file is written. *)
Theorem create_video_without_captions :
  forall (w : World) (self : VideoGenerator) (video_folder : string)
         (image_paths : list string) (bgm_path : option string) (st : State)
         (names more : list string) (video_file : string),
    segments self = [] ->
    listdir w video_folder = Ok names ->
    filter is_video_name names = video_file :: more ->
    exists st',
      create_video w self video_folder image_paths bgm_path st
      = (Raise (mkExc "IndexError" "list index out of range"), st') /\
      trace st' = trace st ++
        [ EvLog [Str "========== 开始生成视频 =========="];
          EvLog [Str "--- 第1步：生成音频片段 ---"];
          EvLog [Str "========== 开始生成音频片段 =========="];
          EvLog [Str "--- 第2步：处理视频片段 ---"];
          EvListDir video_folder;
          EvLog [Str "使用视频文件: ";
                 Str (os_path_join video_folder video_file)];
          EvLog [Str "错误: 创建视频失败: "; Str "list index out of range"];
          EvLogClose ] /\
      files st' = files st /\
      tts_calls st' = tts_calls st.
Proof.
  intros w self video_folder image_paths bgm_path st names more video_file
         Hsegs Hls Hf.
  unfold create_video, create_video_body, generate_audio_segments, os_listdir.
  rewrite Hsegs. cbn [generate_audio_loop]. unfold_monad. norm_state.
  rewrite Hls, Hf. norm_state.
  eexists. split; [reflexivity|]. cbn [trace files tts_calls].
  repeat split.
Qed.

Lemma create_video_without_captions_witness :
  exists st',
    create_video demo_world silent_self "./input" demo_images None demo_state
    = (Raise (mkExc "IndexError" "list index out of range"), st') /\
    files st' = files demo_state /\
    tts_calls st' = 0%nat.
Proof.
  destruct (create_video_without_captions demo_world silent_self "./input"
              demo_images None demo_state ["notes.txt"; "clip.mp4"] []
              "clip.mp4" eq_refl eq_refl eq_refl)
    as (st' & Hrun & _ & Hf & Hc).
  exists st'. repeat split; assumption.
Defined.

(** ** [create_image_video] *)

(** X9.  For a readable picture of any size whose mode JPEG can store,
    [create_image_video] returns a clip of exactly the canvas size that
    lasts [duration] at 24 frames per second, starts at 0 and has no
    sound; each of its frames has the shape of the canvas, and the resized
    copy of the picture is left at the temporary path. *)
Theorem create_image_video_fills_canvas :
  forall (w : World) (self : VideoGenerator) (image_path : string)
         (duration : Q)
         (name : string) (st : State) (img : ImageData),
    (0 < fst (video_size self))%Z -> (0 < snd (video_size self))%Z ->
    files st image_path = Some (FImage img) ->
    jpeg_writable (im_mode img) = true ->
    exists clip st',
      create_image_video w self image_path duration name st = (Ok clip, st') /\
      v_size clip = video_size self /\
      v_duration clip = Some duration /\
      v_fps clip = Some 24 /\
      v_start clip = 0 /\
      v_audio clip = None /\
      (forall t, v_get_frame clip t
                 = Ok (snd (video_size self), fst (video_size self))) /\
      files st' (temp_image_path self name)
      = Some (FImage (mkImageData (video_size self) (im_mode img))).
Proof.
  intros w self p duration name st img HW HH Hf Hmode.
  unfold create_image_video, Image_open, Image_resize, Image_save_jpeg, ImageClip.
  unfold_monad. norm_state. rewrite Hf. norm_state.
  apply Z.ltb_lt in HW, HH. rewrite HW, HH. cbn [andb im_mode]. norm_state.
  rewrite Hmode. norm_state. rewrite write_file_same. norm_state.
  eexists _, _. split; [reflexivity|].
  cbn [v_size v_duration v_fps v_start v_audio v_get_frame v_set_fps
       v_set_duration im_size files].
  repeat split. apply write_file_same.
Qed.

Lemma create_image_video_fills_canvas_witness :
  exists clip st',
    create_image_video demo_world demo_self "./images/马克杯.jpg" 3 "image_2" demo_state
    = (Ok clip, st') /\
    v_size clip = (1080, 1440)%Z /\
    v_duration clip = Some 3 /\
    v_fps clip = Some 24.
Proof.
  destruct (create_image_video_fills_canvas demo_world demo_self "./images/马克杯.jpg" 3
              "image_2" demo_state (mkImageData (800, 600)%Z ModeRGB)
              eq_refl eq_refl eq_refl eq_refl)
    as (clip & st' & Hrun & Hs & Hd & Hfps & _).
  exists clip, st'. repeat split; assumption.
Defined.

(** X10.  For a picture whose mode JPEG cannot store (RGBA, P, LA),
    [create_image_video] fails when it saves the resized copy: it raises
    [OSError] with the message that names the mode and logs its error
    line.  No file is touched but the temporary one: if that file was
    there before, it is left emptied, no picture any more; if it was not,
    it is absent again or left empty, depending on the release of PIL. *)
Theorem create_image_video_rejects_alpha :
  forall (w : World) (self : VideoGenerator) (image_path : string)
         (duration : Q) (name : string) (st : State) (img : ImageData),
    (0 < fst (video_size self))%Z -> (0 < snd (video_size self))%Z ->
    files st image_path = Some (FImage img) ->
    jpeg_writable (im_mode img) = false ->
    exists st',
      create_image_video w self image_path duration name st
      = (Raise (mkExc "OSError"
                  ("cannot write mode " ++ mode_name (im_mode img)
                   ++ " as JPEG")%string), st') /\
      (forall q, q <> temp_image_path self name -> files st' q = files st q) /\
      (files st (temp_image_path self name) <> None ->
       files st' (temp_image_path self name) = Some FOther) /\
      (files st (temp_image_path self name) = None ->
       files st' (temp_image_path self name)
       = if pil_removes_failed_save w then None else Some FOther) /\
      trace st' = trace st ++
        [ EvLog [Str "=== 处理图片视频: "; Str name; Str " ==="];
          EvImageOpen image_path;
          EvImageSave (temp_image_path self name);
          EvLog [Str "错误: 处理图片视频失败: ";
                 Str ("cannot write mode " ++ mode_name (im_mode img)
                      ++ " as JPEG")%string] ].
Proof.
  intros w self p duration name st img HW HH Hf Hmode.
  unfold create_image_video, Image_open, Image_resize, Image_save_jpeg, ImageClip.
  unfold_monad. norm_state. rewrite Hf. norm_state.
  apply Z.ltb_lt in HW, HH. rewrite HW, HH. cbn [andb im_mode]. norm_state.
  rewrite Hmode. norm_state.
  eexists. split; [reflexivity|]. cbn [files trace].
  split; [|split; [|split; [|reflexivity]]].
  - intros q Hq.
    destruct (files st (temp_image_path self name));
      [|destruct (pil_removes_failed_save w)];
      try reflexivity; now apply write_file_other.
  - intros Hthere.
    destruct (files st (temp_image_path self name)); [|congruence].
    apply write_file_same.
  - intros Habsent. rewrite Habsent.
    destruct (pil_removes_failed_save w);
      [exact Habsent | apply write_file_same].
Qed.

Lemma create_image_video_rejects_alpha_witness :
  exists st',
    create_image_video demo_world demo_self "./images/logo.png" 3 "image_1"
      alpha_state
    = (Raise (mkExc "OSError" "cannot write mode RGBA as JPEG"), st') /\
    files st' "./images/logo.png" = files alpha_state "./images/logo.png" /\
    files st' (temp_image_path demo_self "image_1") = None.
Proof.
  destruct (create_image_video_rejects_alpha demo_world demo_self
              "./images/logo.png" 3 "image_1" alpha_state
              (mkImageData (512, 512)%Z ModeRGBA)
              eq_refl eq_refl eq_refl eq_refl)
    as (st' & Hrun & Hkeep & _ & Habsent & _).
  exists st'. split; [exact Hrun|]. split.
  - apply Hkeep. discriminate.
  - apply Habsent. reflexivity.
Defined.

(** ** [resize_and_pad_video]: a source that divides the canvas *)

Lemma py_int_exact (x : Q) (z : Z) :
  x == inject_Z z -> (0 <= z)%Z -> py_int x = z.
Proof.
  intros Hx Hz. unfold py_int.
  assert (E : Qlt_bool x 0 = false).
  { apply Qlt_bool_false. rewrite Hx. change 0 with (inject_Z 0).
    now rewrite <- Zle_Qle. }
  rewrite E, (Qfloor_comp _ _ Hx). apply Qfloor_Z.
Qed.

Lemma round_half_even_exact (q d : Z) :
  (0 < d)%Z -> round_half_even (q * d) d = q.
Proof.
  intros Hd. unfold round_half_even.
  rewrite Z.div_mul, Z.mod_mul by lia.
  replace (2 * 0)%Z with 0%Z by lia.
  destruct (Z.compare_spec 0 d); [lia | reflexivity | lia].
Qed.

Lemma ilog2_ratio_mul (z d : Z) :
  (0 < z)%Z -> (0 < d)%Z -> ilog2_ratio (z * d) d = Z.log2 z.
Proof.
  intros Hz Hd. unfold ilog2_ratio.
  pose proof (Z.log2_mul_below z d Hz Hd) as Hb.
  pose proof (Z.log2_mul_above z d ltac:(lia) ltac:(lia)) as Ha.
  pose proof (Z.log2_nonneg z) as Hn.
  destruct (Z.log2_spec z Hz) as [Hlo Hhi].
  set (e := (Z.log2 (z * d) - Z.log2 d)%Z) in *.
  assert (He : e = Z.log2 z \/ e = Z.succ (Z.log2 z)) by lia.
  rewrite (Z.max_l 0 (- e)), (Z.max_r 0 e) by lia.
  rewrite Z.pow_0_r, Z.mul_1_r.
  assert (Hpos : (0 < 2 ^ e)%Z) by (apply Z.pow_pos_nonneg; lia).
  destruct (Z.ltb_spec (z * d) (d * 2 ^ e)) as [Hlt|Hge].
  - assert (z < 2 ^ e)%Z by nia.
    destruct He as [E|E]; rewrite E in *; lia.
  - assert (2 ^ e <= z)%Z by nia.
    destruct He as [E|E]; rewrite E in *; lia.
Qed.

(** A whole number below [2 ^ 53] is a double: rounding leaves it as it
    is, however the rational is written. *)
Lemma binary64_int (x : Q) (z : Z) :
  x == inject_Z z -> (0 < z < 2 ^ 53)%Z -> binary64 x == inject_Z z.
Proof.
  intros Hx [Hz0 Hz].
  destruct x as [n d]. unfold Qeq in Hx. cbn [Qnum Qden inject_Z] in Hx.
  rewrite Z.mul_1_r in Hx. subst n.
  assert (Hl : (0 <= Z.log2 z < 53)%Z).
  { split; [apply Z.log2_nonneg | now apply Z.log2_lt_pow2]. }
  unfold binary64. cbn [Qnum Qden].
  assert (Hzd : (0 < z * Z.pos d)%Z) by nia.
  rewrite Z.abs_eq by lia.
  destruct (Z.eqb_spec (z * Z.pos d) 0) as [E|_]; [lia|].
  rewrite ilog2_ratio_mul by lia.
  rewrite (Z.max_l (Z.log2 z - 52) (-1074)) by lia.
  set (k := (Z.log2 z - 52)%Z).
  rewrite (Z.max_r 0 (- k)), (Z.max_l 0 k) by lia.
  rewrite Z.pow_0_r, Z.mul_1_r.
  replace (z * Z.pos d * 2 ^ (- k))%Z with (z * 2 ^ (- k) * Z.pos d)%Z by ring.
  rewrite round_half_even_exact by lia.
  destruct (Z.ltb_spec (z * Z.pos d) 0) as [E|_]; [lia|].
  assert (Hpow : (0 < 2 ^ (- k))%Z) by (apply Z.pow_pos_nonneg; lia).
  destruct (Z.leb_spec 0 k) as [Hk|Hk].
  - assert (E : k = 0%Z) by lia. rewrite E.
    unfold Qeq. cbn [Qnum Qden inject_Z]. cbn. ring.
  - unfold Qeq. cbn [Qnum Qden inject_Z].
    rewrite Z2Pos.id by exact Hpow. ring.
Qed.

(** X11.  A source whose width and height divide those of the canvas by the
    same whole factor (the canvas itself, half of it, a third of it) is
    scaled to exactly the canvas, with no rounding, and returned as it is
    then: the clip has the size of the canvas and the duration, the frame
    rate, the sound and the start of the source, and no file is written.
    Sizes are below 2 ^ 53, as every size that fits a double exactly. *)
Theorem resize_and_pad_video_whole_factor :
  forall (self : VideoGenerator) (clip : VideoClip) (st : State) (k : Z),
    (1 <= k)%Z ->
    (0 < fst (v_size clip))%Z -> (0 < snd (v_size clip))%Z ->
    fst (video_size self) = (k * fst (v_size clip))%Z ->
    snd (video_size self) = (k * snd (v_size clip))%Z ->
    (fst (video_size self) < 2 ^ 53)%Z -> (snd (video_size self) < 2 ^ 53)%Z ->
    exists out st',
      resize_and_pad_video self clip st = (Ok out, st') /\
      v_size out = video_size self /\
      v_duration out = v_duration clip /\
      v_fps out = v_fps clip /\
      v_audio out = v_audio clip /\
      v_start out = v_start clip /\
      files st' = files st.
Proof.
  intros self clip st k Hk Hw Hh HW HH HWb HHb.
  assert (Hw0 : ~ inject_Z (fst (v_size clip)) == 0).
  { change 0 with (inject_Z 0). rewrite inject_Z_injective. lia. }
  assert (Hh0 : ~ inject_Z (snd (v_size clip)) == 0).
  { change 0 with (inject_Z 0). rewrite inject_Z_injective. lia. }
  assert (Hkb : (0 < k < 2 ^ 53)%Z) by nia.
  assert (Hratio : cover_ratio self clip == inject_Z k).
  { unfold cover_ratio, py_max2. rewrite HW, HH.
    destruct (Qlt_bool _ _); apply binary64_int; try exact Hkb;
      rewrite inject_Z_mult; field; assumption. }
  assert (Hsize : v_size (v_resize clip (cover_ratio self clip)) = video_size self).
  { unfold v_resize. cbn [v_size].
    rewrite (surjective_pairing (video_size self)).
    f_equal; (apply py_int_exact; [|lia]); unfold float_mul;
      apply binary64_int; try lia.
    - rewrite Hratio, (binary64_int (inject_Z (fst (v_size clip)))
                         (fst (v_size clip))) by (try reflexivity; nia).
      rewrite HW, inject_Z_mult. reflexivity.
    - rewrite Hratio, (binary64_int (inject_Z (snd (v_size clip)))
                         (snd (v_size clip))) by (try reflexivity; nia).
      rewrite HH, inject_Z_mult. reflexivity. }
  eexists _, _. split.
  - apply resize_and_pad_video_same; try lia. now apply size_eqb_eq.
  - cbn [files]. split; [exact Hsize|]. repeat split.
Qed.

(** A source of 540 x 720 on the canvas of 1080 x 1440: the factor is 2. *)
Lemma resize_and_pad_video_whole_factor_witness :
  exists out st',
    resize_and_pad_video demo_self small_portrait_clip demo_state = (Ok out, st') /\
    v_size out = (1080, 1440)%Z /\
    v_duration out = Some 8 /\
    v_fps out = Some 25.
Proof.
  destruct (resize_and_pad_video_whole_factor demo_self small_portrait_clip
              demo_state 2%Z)
    as (out & st' & Hrun & Hs & Hd & Hf & _); try reflexivity; try lia.
  exists out, st'. repeat split; assumption.
Defined.

(** ** [generate_audio_segments]: the files it leaves *)

Lemma timeline_files_last self segs : forall clips fs i seg c,
  nth_error segs i = Some seg ->
  nth_error clips i = Some c ->
  (forall j seg', (i < j)%nat -> nth_error segs j = Some seg' ->
                  voice_path self seg' <> voice_path self seg) ->
  timeline_files self segs clips fs (voice_path self seg) = Some (FAudio c).
Proof.
  induction segs as [|seg0 segs IH]; intros [|c0 clips] fs i seg c Hs Hc Hlast;
    destruct i as [|i]; cbn in Hs, Hc; try discriminate.
  - injection Hs as ->. injection Hc as ->. cbn [timeline_files].
    rewrite timeline_files_other; [apply write_file_same|].
    intros Hin. apply in_map_iff in Hin. destruct Hin as (seg' & Heq & Hin).
    apply In_nth_error in Hin. destruct Hin as (j & Hj).
    exact (Hlast (S j) seg' ltac:(lia) Hj Heq).
  - cbn [timeline_files]. apply (IH clips _ i seg c Hs Hc).
    intros j seg' Hj Hn. apply (Hlast (S j) seg'); [lia | exact Hn].
Qed.

(** X12.  After a successful narration build, one request per caption has been
    sent; every file that is not a narration file is as it was; and the
    narration file of a caption holds the clip of that caption, unless a
    later caption has the same file name, in which case the later one has
    overwritten it (the timeline still holds both clips). *)
Theorem generate_audio_segments_files :
  forall (w : World) (self : VideoGenerator) (st : State)
         (clips : list AudioData),
    synthesizes w (tts_calls st) (segments self) clips ->
    exists tl st',
      generate_audio_segments w self st = (Ok tl, st') /\
      tts_calls st' = (tts_calls st + length (segments self))%nat /\
      (forall q, ~ In q (map (voice_path self) (segments self)) ->
                 files st' q = files st q) /\
      (forall i seg c,
          nth_error (segments self) i = Some seg ->
          nth_error clips i = Some c ->
          (forall j seg', (i < j)%nat ->
                          nth_error (segments self) j = Some seg' ->
                          voice_path self seg' <> voice_path self seg) ->
          files st' (voice_path self seg) = Some (FAudio c)).
Proof.
  intros w self st clips Hsyn.
  eexists _, _. split; [exact (generate_audio_segments_ok w self st clips Hsyn)|].
  cbn [tts_calls files]. split; [reflexivity|]. split.
  - intros q Hq. now apply timeline_files_other.
  - intros i seg c Hs Hc Hlast. now apply (timeline_files_last self _ _ _ i).
Qed.

Lemma generate_audio_segments_files_witness :
  exists tl st',
    generate_audio_segments demo_world demo_self demo_state = (Ok tl, st') /\
    tts_calls st' = 7%nat /\
    files st' "bgm.mp3" = files demo_state "bgm.mp3" /\
    files st' "/work/audio/20240101_120000/gold_voice.mp3"
    = Some (FAudio (demo_clip (14 # 5))).
Proof.
  destruct (generate_audio_segments_files demo_world demo_self demo_state
              (map demo_clip demo_durations) demo_synthesizes)
    as (tl & st' & Hrun & Hcalls & Hkeep & Hlast).
  exists tl, st'. split; [exact Hrun|]. split; [exact Hcalls|]. split.
  - apply Hkeep. cbn. intros H.
    repeat (destruct H as [H | H]; [discriminate|]). contradiction.
  - apply (Hlast 3%nat (mkSegment "gold" "黄金毛巾" 9 3) (demo_clip (14 # 5)));
      try reflexivity.
    intros j seg' Hj Hn.
    do 4 (destruct j as [|j]; [lia|]).
    do 3 (destruct j as [|j]; [cbn in Hn; injection Hn as <-; cbn; discriminate|]).
    destruct j; discriminate.
Defined.

(** ** [generate_audio_segments]: the nominal fields *)

Lemma generate_audio_loop_ignores_nominal w self1 self2 segs1 :
  dir_audio (dirs self1) = dir_audio (dirs self2) ->
  forall segs2 acc t st,
    map name segs1 = map name segs2 ->
    map text segs1 = map text segs2 ->
    generate_audio_loop w self1 segs1 acc t st
    = generate_audio_loop w self2 segs2 acc t st.
Proof.
  intros Hdir.
  induction segs1 as [|s1 segs1 IH]; intros [|s2 segs2] acc t st Hn Ht;
    try discriminate; [reflexivity|].
  cbn in Hn, Ht. injection Hn as Hn1 Hn. injection Ht as Ht1 Ht.
  cbn [generate_audio_loop].
  assert (Hstep :
    try_except (generate_audio_segment w self1 s1 acc t)
               (generate_audio_failed s1) st
    = try_except (generate_audio_segment w self2 s2 acc t)
                 (generate_audio_failed s2) st).
  { unfold generate_audio_segment, generate_audio_failed, voice_path.
    rewrite Hdir, Hn1, Ht1. reflexivity. }
  unfold bind. rewrite Hstep. clear Hstep.
  destruct (try_except _ _ st) as [[[acc' t']|e] st1]; [|reflexivity].
  now apply IH.
Qed.

(** X13.  The narration build reads the names and the texts of the segments and
    nothing else: two generators with the same audio directory whose
    segments agree on names and texts, whatever their nominal [start] and
    [target_duration], run [generate_audio_segments] to the same result,
    the same files and the same trace. *)
Theorem generate_audio_segments_ignores_nominal_fields :
  forall (w : World) (self1 self2 : VideoGenerator) (st : State),
    dir_audio (dirs self1) = dir_audio (dirs self2) ->
    map name (segments self1) = map name (segments self2) ->
    map text (segments self1) = map text (segments self2) ->
    generate_audio_segments w self1 st = generate_audio_segments w self2 st.
Proof.
  intros w self1 self2 st Hdir Hn Ht. unfold generate_audio_segments.
  unfold bind. destruct (log _ st) as [[u|e] st1]; [|reflexivity].
  now apply generate_audio_loop_ignores_nominal.
Qed.

Lemma generate_audio_segments_ignores_nominal_fields_witness :
  generate_audio_segments demo_world demo_self demo_state
  = generate_audio_segments demo_world
      (mkVideoGenerator "/elsewhere" (dirs demo_self)
         (map (fun s => mkSegment (name s) (text s) 0 1) setup_segments)
         (720, 1280)%Z "2000k")
      demo_state.
Proof.
  apply generate_audio_segments_ignores_nominal_fields; reflexivity.
Defined.

(** ** [generate_audio_segments]: what a failure leaves behind *)

Lemma generate_audio_loop_raise_files w self pre : forall seg post clips e acc t st,
  synthesizes w (tts_calls st) pre clips ->
  gtts w (tts_calls st + length pre) (text seg) "zh-cn" = Raise e ->
  files (snd (generate_audio_loop w self (pre ++ seg :: post) acc t st))
  = timeline_files self pre clips (files st).
Proof.
  induction pre as [|p pre IH]; intros seg post [|c clips] e acc t st H He;
    cbn in H; try contradiction.
  - cbn [app generate_audio_loop length] in *. rewrite Nat.add_0_r in He.
    erewrite bind_raise
      by (apply generate_audio_segment_raise; exact He).
    reflexivity.
  - destruct H as [Hc Hrest].
    cbn [app generate_audio_loop].
    erewrite bind_ok
      by (apply try_except_ok; apply generate_audio_segment_ok; exact Hc).
    cbv beta iota.
    rewrite (IH seg post clips e).
    + reflexivity.
    + cbn [tts_calls]. exact Hrest.
    + cbn [tts_calls length] in *. now rewrite Nat.add_succ_r in He.
Qed.

(** X14.  Nothing is cleaned up when the narration build fails: if the provider
    answers the captions before [seg] and fails on [seg], the narration
    file of every earlier caption is still on disk with the clip the
    provider gave for it (unless a later caption, up to the failing one,
    has the same file name), and the files that are no narration file of a
    caption up to the failing one are as they were. *)
Theorem generate_audio_segments_failure_keeps_earlier_files :
  forall (w : World) (self : VideoGenerator) (st : State)
         (pre post : list Segment) (seg : Segment)
         (clips : list AudioData) (e : Exception),
    segments self = pre ++ seg :: post ->
    synthesizes w (tts_calls st) pre clips ->
    gtts w (tts_calls st + length pre) (text seg) "zh-cn" = Raise e ->
    exists st',
      generate_audio_segments w self st = (Raise e, st') /\
      (forall i seg_i c,
          nth_error pre i = Some seg_i ->
          nth_error clips i = Some c ->
          (forall j seg', (i < j)%nat ->
                          nth_error (pre ++ [seg]) j = Some seg' ->
                          voice_path self seg' <> voice_path self seg_i) ->
          files st' (voice_path self seg_i) = Some (FAudio c)) /\
      (forall q, ~ In q (map (voice_path self) (pre ++ [seg])) ->
                 files st' q = files st q).
Proof.
  intros w self st pre post seg clips e Hsegs Hsyn He.
  pose proof (generate_audio_loop_raise_files w self pre seg post clips e [] 0
                (mkState (files st) (tts_calls st)
                   (trace st ++
                    [EvLog [Str "========== 开始生成音频片段 =========="]]))
                Hsyn He) as Hfiles.
  destruct (generate_audio_loop_raise w self pre seg post clips e [] 0
              (mkState (files st) (tts_calls st)
                 (trace st ++
                  [EvLog [Str "========== 开始生成音频片段 =========="]]))
              Hsyn He) as (fs & Hrun).
  rewrite Hrun in Hfiles. cbn [snd files] in Hfiles. subst fs.
  eexists. split; [|split].
  - unfold generate_audio_segments.
    erewrite bind_ok by reflexivity. rewrite Hsegs. exact Hrun.
  - intros i seg_i c Hs Hc Hlast. cbn [files].
    apply (timeline_files_last self pre clips (files st) i seg_i c Hs Hc).
    intros j seg' Hj Hn. apply (Hlast j seg' Hj).
    rewrite nth_error_app1; [exact Hn|].
    apply nth_error_Some. congruence.
  - intros q Hq. cbn [files]. apply timeline_files_other.
    intros Hin. apply Hq. rewrite map_app. apply in_or_app. now left.
Qed.

(** The provider fails on the third caption: the first two files stay. *)
Lemma generate_audio_segments_failure_keeps_earlier_files_witness :
  exists st',
    generate_audio_segments flaky_world demo_self demo_state
    = (Raise (mkExc "gTTSError" "Failed to connect"), st') /\
    files st' "/work/audio/20240101_120000/intro_voice.mp3"
    = Some (FAudio (demo_clip 3)) /\
    files st' "bgm.mp3" = files demo_state "bgm.mp3".
Proof.
  destruct (generate_audio_segments_failure_keeps_earlier_files
              flaky_world demo_self demo_state
              (firstn 2 setup_segments) (skipn 3 setup_segments)
              (mkSegment "silver" "白银马克杯" 6 3)
              (map demo_clip (firstn 2 demo_durations))
              (mkExc "gTTSError" "Failed to connect"))
    as (st' & Hrun & Hkept & Hother).
  - reflexivity.
  - cbn. repeat split.
  - reflexivity.
  - exists st'. split; [exact Hrun|]. split.
    + apply (Hkept 0%nat (mkSegment "intro" "王一博周边定制排行" 0 3)
               (demo_clip 3)); try reflexivity.
      intros j seg' Hj Hn.
      destruct j as [|j]; [lia|].
      do 2 (destruct j as [|j];
            [cbn in Hn; injection Hn as <-; cbn; discriminate|]).
      destruct j; discriminate.
    + apply Hother. cbn. intros H.
      repeat (destruct H as [H | H]; [discriminate|]). contradiction.
Defined.

(** ** [create_video]: the files it may touch *)


















(** ** [create_video]: how long the pictures last *)





(** ** [create_video]: what it reads *)

(** [bind] again, with the continuation knowing that its argument is a
    result of [m]. *)
Lemma preserves_bind_ok (R : State -> State -> Prop) {HR : PreOrder R}
    {A B} (m : M A) (k : A -> M B) :
  preserves R m ->
  (forall a, (exists st st', m st = (Ok a, st')) -> preserves R (k a)) ->
  preserves R (bind m k).
Proof.
  intros Hm Hk st r st' E. unfold bind in E.
  destruct (m st) as [[a|e] st1] eqn:E1.
  - transitivity st1; [exact (Hm _ _ _ E1)|].
    refine (Hk a _ _ _ _ E). now exists st, st1.
  - injection E as <- <-. exact (Hm _ _ _ E1).
Qed.

Ltac reading_step :=
  first
    [ pres_ret
    | pres_raise
    | pres_lift
    | apply emitting_log; solve [auto]
    | apply emitting_emit; solve [auto]
    | apply emitting_gTTS_save; solve [auto]
    | pres_bind
    | pres_try
    | match goal with
      | |- preserves _ (match ?x with _ => _ end) => destruct x
      end
    | apply emitting_same_trace; intros ?; cbn;
      repeat match goal with
             | |- context [match ?x with _ => _ end] => destruct x; cbn
             end;
      reflexivity ].

Ltac reading_tac := repeat reading_step.

Section Reads.

Variable ok : Event -> bool.
Hypothesis Hlog : forall line, ok (EvLog line) = true.
Hypothesis Htts : forall text lang path, ok (EvTtsSave text lang path) = true.
Hypothesis Hsave : forall path, ok (EvImageSave path) = true.
Hypothesis Hload : forall path, ok (EvImageLoad path) = true.
Hypothesis Hwrite : forall m path p, ok (EvWriteVideofile m path p) = true.

Lemma reading_generate_audio_loop w self segs :
  (forall seg, In seg segs -> ok (EvAudioLoad (voice_path self seg)) = true) ->
  forall acc t, preserves (emitting ok) (generate_audio_loop w self segs acc t).
Proof.
  induction segs as [|seg segs IH]; intros HP acc t; cbn [generate_audio_loop].
  - pres_ret.
  - pres_bind;
      [|destruct a as [acc' t']; apply IH; intros s Hs; apply HP; now right].
    assert (Hseg : ok (EvAudioLoad (voice_path self seg)) = true)
      by (apply HP; now left).
    unfold generate_audio_segment, generate_audio_failed, AudioFileClip.
    reading_tac.
Qed.

Lemma reading_resize_and_pad_video self clip :
  preserves (emitting ok) (resize_and_pad_video self clip).
Proof. unfold resize_and_pad_video. reading_tac. Qed.

Lemma reading_process_video_by_duration w self video_path start duration name :
  ok (EvVideoLoad video_path) = true ->
  preserves (emitting ok)
    (process_video_by_duration w self video_path start duration name).
Proof.
  intros Hv. unfold process_video_by_duration, VideoFileClip, write_videofile.
  pres_try; [|reading_tac].
  pres_bind; [reading_tac|].
  pres_bind; [reading_tac|].
  pres_bind; [apply reading_resize_and_pad_video|].
  reading_tac.
Qed.

Lemma reading_create_image_video w self image_path duration name :
  ok (EvImageOpen image_path) = true ->
  preserves (emitting ok) (create_image_video w self image_path duration name).
Proof.
  intros Hp. unfold create_image_video, Image_open, Image_save_jpeg, ImageClip.
  reading_tac.
Qed.

Lemma reading_create_video_images w self image_paths rest :
  (forall p, In p image_paths -> ok (EvImageOpen p) = true) ->
  forall i acc,
    preserves (emitting ok) (create_video_images w self image_paths rest i acc).
Proof.
  intros HP.
  induction rest as [|[[a s] d] rest IH]; intros i acc;
    cbn [create_video_images].
  - pres_ret.
  - pres_bind; [|apply IH].
    destruct (i - 1 <? length image_paths)%nat; [|pres_ret].
    pres_bind; [apply emitting_log; auto|].
    apply preserves_bind_ok; [exact _ | pres_lift |].
    intros p (st0 & st1 & Hp). unfold lift in Hp.
    destruct (nth_error image_paths (i - 1)) as [p'|] eqn:Hn; [|discriminate].
    injection Hp as -> _.
    pres_bind; [|pres_ret].
    apply reading_create_image_video, HP. eapply nth_error_In. exact Hn.
Qed.

Lemma reading_process_bgm self bgm_path total :
  ok (EvAudioLoad bgm_path) = true ->
  preserves (emitting ok) (process_bgm self bgm_path total).
Proof. intros Hp. unfold process_bgm, AudioFileClip. reading_tac. Qed.

Lemma reading_create_video_audio self segs bgm_path :
  (forall p, bgm_path = Some p ->
             ok (EvPathExists p) = true /\ ok (EvAudioLoad p) = true) ->
  preserves (emitting ok) (create_video_audio self segs bgm_path).
Proof.
  intros HP. unfold create_video_audio, os_path_exists.
  pres_bind; [pres_lift|].
  pres_bind; [apply emitting_log; auto|].
  pres_bind.
  - destruct bgm_path as [p|]; [|pres_ret].
    destruct (HP p eq_refl) as [Hex _].
    destruct (truthy (Some p)); [|pres_ret]. reading_tac.
  - destruct bgm_path as [p|], a1;
      try (pres_bind; [apply emitting_log; auto | pres_ret]).
    destruct (HP p eq_refl) as [_ Hld].
    pres_bind; [now apply reading_process_bgm|].
    reading_tac.
Qed.

End Reads.

Lemma reading_create_video w self video_folder image_paths bgm_path :
  preserves (emitting (reads_only w self video_folder image_paths bgm_path))
    (create_video w self video_folder image_paths bgm_path).
Proof.
  set (ok := reads_only w self video_folder image_paths bgm_path).
  assert (Hlog : forall line, ok (EvLog line) = true) by reflexivity.
  assert (Hclose : ok EvLogClose = true) by reflexivity.
  assert (Hdir : ok (EvListDir video_folder) = true)
    by apply String.eqb_refl.
  unfold create_video.
  apply preserves_try_finally; [exact _ | | now apply emitting_emit].
  pres_try; [|reading_tac].
  unfold create_video_body.
  pres_bind; [now apply emitting_log|].
  pres_bind; [now apply emitting_log|].
  apply preserves_bind; [exact _ | | intros audio_segments].
  { unfold generate_audio_segments.
    pres_bind; [now apply emitting_log|].
    apply reading_generate_audio_loop; try reflexivity.
    intros seg Hseg. unfold ok, reads_only. apply orb_true_intro. left.
    apply existsb_exists. exists seg. split; [exact Hseg|].
    apply String.eqb_refl. }
  pres_bind; [now apply emitting_log|].
  apply preserves_bind_ok; [exact _ | unfold os_listdir; reading_tac |].
  intros names (st0 & st1 & Hls).
  assert (Hls' : listdir w video_folder = Ok names).
  { unfold os_listdir, bind, emit, lift in Hls. now injection Hls. }
  destruct (filter is_video_name names) as [|video_file more] eqn:Hf;
    [pres_raise|].
  pres_bind; [now apply emitting_log|].
  destruct audio_segments as [|[[first_audio first_start] first_duration] rest];
    [pres_raise|].
  pres_bind.
  { apply reading_process_video_by_duration; try reflexivity.
    unfold ok, reads_only, chosen_video. rewrite Hls', Hf.
    apply String.eqb_refl. }
  pres_bind.
  { apply reading_create_video_images; try reflexivity.
    intros p Hp. unfold ok, reads_only. apply existsb_exists.
    exists p. split; [exact Hp | apply String.eqb_refl]. }
  pres_bind; [now apply emitting_log|].
  pres_bind; [pres_lift|].
  pres_bind; [now apply emitting_log|].
  pres_bind.
  { apply reading_create_video_audio; try reflexivity.
    intros p ->. unfold ok, reads_only. split.
    - apply String.eqb_refl.
    - apply orb_true_intro. right. apply String.eqb_refl. }
  unfold write_videofile. reading_tac.
Qed.

(** X17.  Whatever the world answers and however the run ends, [create_video]
    reads nothing but what it was given or wrote itself: it lists the
    video folder and no other, loads no video but the first one of the
    listing whose name ends in [.mp4] or [.MP4], opens no picture outside
    [image_paths], and loads no audio but the narration files of its
    captions and the background at [bgm_path], the only path whose
    existence it tests. *)
Theorem create_video_reads_only_its_inputs :
  forall (w : World) (self : VideoGenerator) (video_folder : string)
         (image_paths : list string) (bgm_path : option string) (st : State),
  exists evs,
    trace (snd (create_video w self video_folder image_paths bgm_path st))
    = trace st ++ evs /\
    forallb (reads_only w self video_folder image_paths bgm_path) evs = true.
Proof.
  intros w self video_folder image_paths bgm_path st.
  destruct (create_video w self video_folder image_paths bgm_path st)
    as [r st'] eqn:E.
  exact (reading_create_video w self video_folder image_paths bgm_path
           st r st' E).
Qed.

(** ** [__init__]: the files of a generator do not collide *)

Lemma path_join_relative (dir name : string) :
  is_absolute name = false -> path_join dir name = (dir ++ "/" ++ name)%string.
Proof.
  unfold path_join, is_absolute.
  destruct name as [|[[] [] [] [] [] [] [] []] name]; intros H;
    try reflexivity; discriminate.
Qed.

Lemma append_assoc (a b c : string) :
  ((a ++ b) ++ c = a ++ (b ++ c))%string.
Proof. induction a as [|x a IH]; cbn; [reflexivity | now rewrite IH]. Qed.

Lemma append_inv_head (d x y : string) :
  (d ++ x = d ++ y)%string -> x = y.
Proof.
  induction d as [|c d IH]; cbn; intros H; [exact H|].
  injection H as H. now apply IH.
Qed.

Ltac paths_differ H :=
  rewrite ?path_join_relative in H by (assumption || reflexivity);
  rewrite ?append_assoc in H; cbn in H;
  apply append_inv_head in H; discriminate H.

(** X18.  For a generator built by [__init__] in any working directory, with a
    time stamp that is not an absolute path (the stamp is made of digits
    and an underscore), the seven narration files are seven different
    files, so that no caption overwrites the narration of another, and the
    final video is none of the intermediate files of a run. *)
Theorem VideoGenerator_init_files_apart :
  forall (cwd timestamp : string),
    is_absolute timestamp = false ->
    NoDup (map (voice_path (VideoGenerator_init cwd timestamp))
               (segments (VideoGenerator_init cwd timestamp))) /\
    ~ intermediate_output (VideoGenerator_init cwd timestamp)
        (output_path (VideoGenerator_init cwd timestamp)).
Proof.
  intros cwd timestamp Hts. split.
  - unfold voice_path.
    generalize (dir_audio (dirs (VideoGenerator_init cwd timestamp))).
    intros A. cbn.
    repeat constructor; cbn; intros H;
      repeat (destruct H as [H | H];
              [apply append_inv_head in H; discriminate H|]);
      contradiction.
  - unfold intermediate_output, output_path, voice_path, debug_video_path,
      temp_image_path, image_name, VideoGenerator_init, setup_directories.
    cbn [dirs dir_output dir_audio dir_debug dir_temp segments setup_segments
         map name In].
    intros [H | [H | (k & H)]].
    + repeat (destruct H as [H | H]; [symmetry in H; paths_differ H|]).
      contradiction.
    + paths_differ H.
    + paths_differ H.
Qed.

Lemma VideoGenerator_init_files_apart_witness :
  NoDup (map (voice_path demo_self) (segments demo_self)) /\
  ~ intermediate_output demo_self (output_path demo_self).
Proof.
  apply (VideoGenerator_init_files_apart "/work" "20240101_120000").
  reflexivity.
Defined.
